(** * The tool-call orchestration loop of [client.py]

    A shallow embedding of [MCPClient.process_query]: one query turn that
    asks the model backend for a completion, runs the tool calls the model
    asked for against the tool host, and asks the model once more.

    The two collaborators (the MCP [ClientSession] and the OpenAI-compatible
    chat client) are interfaces over a hidden state; every interaction with
    them is recorded in a trace, so that statements such as "the tool was
    never invoked" or "no second completion request was issued" are
    statements about that trace.

    A raised error is an instance of [Exception] (what [except Exception]
    catches), carried by its message.  The [text] attribute of a content
    item, when present, is a string, as MCP types it. *)

From Stdlib Require Import String Ascii List Arith Lia Bool ZArith DecimalString.
Import ListNotations.
Open Scope string_scope.

Set Implicit Arguments.

(** ** Python values and helpers *)

(** The value [json.loads] returns.  A float is carried by its printed
    form: the client never computes with it. *)
#[local] Unset Elimination Schemes.
Inductive pyval : Type :=
| PNone
| PBool (b : bool)
| PInt (z : Z)
| PFloat (printed : string)
| PStr (s : string)
| PList (items : list pyval)
| PDict (entries : list (string * pyval)).
#[local] Set Elimination Schemes.

(** A raised [Exception], carried by [str(e)]. *)
Definition Exn : Type := string.

Definition Result (A : Type) : Type := (Exn + A)%type.

(** What [json.loads] does with a text: it returns a value, raises
    [json.JSONDecodeError], or raises another exception ([RecursionError]
    on brackets nested too deep, [ValueError] on an integer with more
    digits than the interpreter converts).  Exceptions are carried by
    their [str]. *)
Inductive Loaded : Type :=
| Parsed (value : pyval)
| DecodeError (e : Exn)
| OtherError (e : Exn).

(** The Python runtime services [process_query] relies on: [json.loads]
    and the text an f-string field [{v}] produces for a parsed value. *)
Class PyRuntime : Type := {
  json_loads : string -> Loaded;
  py_format : pyval -> string
}.

(** The line feed of ["\n"]. *)
Definition nl : string := String "010"%char EmptyString.

(** [sep.join(items)] *)
Fixpoint str_join (sep : string) (items : list string) : string :=
  match items with
  | [] => ""
  | [x] => x
  | x :: rest => x ++ sep ++ str_join sep rest
  end.

(** Truth value of an [Optional[str]]: [None] and [""] are false. *)
Definition truthy_str (s : option string) : bool :=
  match s with
  | Some (String _ _) => true
  | _ => false
  end.

(** Truth value of an optional list: [None] and [[]] are false. *)
Definition truthy_list {A : Type} (l : option (list A)) : bool :=
  match l with
  | Some (_ :: _) => true
  | _ => false
  end.

(** ** Data model *)

(** A tool of the catalog, as [list_tools()] reports it. *)
Record Tool : Type := {
  tool_name : string;
  tool_description : option string;
  tool_inputSchema : pyval
}.

(** [{"type": "function", "function": {"name", "description", "parameters"}}] *)
Record ToolSpec : Type := {
  spec_type : string;
  spec_name : string;
  spec_description : option string;
  spec_parameters : pyval
}.

(** One tool call of an assistant reply: [tc.id], [tc.function.name],
    [tc.function.arguments]. *)
Record ToolCall : Type := {
  tc_id : string;
  tc_name : string;
  tc_arguments : string
}.

(** [response.choices[0].message] *)
Record ChatMessage : Type := {
  msg_content : option string;
  msg_tool_calls : option (list ToolCall)
}.

(** The dict recorded for a tool call inside the assistant history entry. *)
Record ToolCallEntry : Type := {
  entry_id : string;
  entry_type : string;
  entry_name : string;
  entry_arguments : string
}.

(** The entries of the [messages] list. *)
Inductive Message : Type :=
| UserMsg (content : string)
| AssistantMsg (content : option string) (tool_calls : list ToolCallEntry)
| ToolMsg (tool_call_id : string) (content : string).

(** The keyword arguments of [chat.completions.create]; [tools] and
    [tool_choice] are absent from the second request. *)
Record Request : Type := {
  req_model : string;
  req_messages : list Message;
  req_tools : option (list ToolSpec);
  req_tool_choice : option string;
  req_max_tokens : nat
}.

(** An item of a tool result's content list: [text] is the attribute the
    code probes with [hasattr], [item_str] is [str(item)]. *)
Record ContentItem : Type := {
  item_text : option string;
  item_str : string
}.

(** The three shapes the code distinguishes by [isinstance]. *)
Inductive Content : Type :=
| CStr (s : string)
| CList (items : list ContentItem)
| COther (printed : string).

(** What [call_tool] returns: [result_content] is the [content] attribute
    when the object has one, [result_str] is [str(tool_result)]. *)
Record CallToolResult : Type := {
  result_content : option Content;
  result_str : string
}.

(** ** Collaborators *)

(** The MCP session and the chat client, as transitions of a hidden state
    [W] (the subprocess and the remote service). *)
Class Collaborators (W : Type) : Type := {
  session_list_tools : W -> Result (list Tool) * W;
  session_call_tool : string -> pyval -> W -> Result CallToolResult * W;
  chat_completions_create : Request -> W -> Result ChatMessage * W
}.

(** One interaction with a collaborator: what was asked and what came back. *)
Inductive Event : Type :=
| EvListTools (r : Result (list Tool))
| EvCreate (req : Request) (r : Result ChatMessage)
| EvCallTool (name : string) (args : pyval) (r : Result CallToolResult).

Record World (W : Type) : Type := {
  ext : W;
  trace : list Event
}.

(** ** A state and exception monad for [async] methods *)

Definition M (W A : Type) : Type := World W -> Result A * World W.

Definition ret {W A : Type} (a : A) : M W A := fun w => (inr a, w).

Definition raise {W A : Type} (e : Exn) : M W A := fun w => (inl e, w).

Definition bind {W A B : Type} (c : M W A) (k : A -> M W B) : M W B :=
  fun w =>
    match c w with
    | (inr a, w') => k a w'
    | (inl e, w') => (inl e, w')
    end.

(** [try: c  except Exception as e: h e] *)
Definition try_except {W A : Type} (c : M W A) (h : Exn -> M W A) : M W A :=
  fun w =>
    match c w with
    | (inr a, w') => (inr a, w')
    | (inl e, w') => h e w'
    end.

Declare Scope py_scope.
Delimit Scope py_scope with py.
Notation "x <- c ;; k" := (bind c (fun x => k))
  (at level 61, c at next level, right associativity) : py_scope.
Open Scope py_scope.

Section Operations.
Context {W : Type} {C : Collaborators W}.

(** [await self.session.list_tools()], returning [response.tools] *)
Definition list_tools : M W (list Tool) :=
  fun w =>
    let (r, e') := session_list_tools (ext w) in
    (r, {| ext := e'; trace := (trace w ++ [EvListTools r])%list |}).

(** [await self.session.call_tool(name, args)] *)
Definition call_tool (name : string) (args : pyval) : M W CallToolResult :=
  fun w =>
    let (r, e') := session_call_tool name args (ext w) in
    (r, {| ext := e'; trace := (trace w ++ [EvCallTool name args r])%list |}).

(** [await self.client.chat.completions.create(...)], returning
    [response.choices[0].message]. *)
Definition create (req : Request) : M W ChatMessage :=
  fun w =>
    let (r, e') := chat_completions_create req (ext w) in
    (r, {| ext := e'; trace := (trace w ++ [EvCreate req r])%list |}).
End Operations.

(** ** [process_query] *)

(** The two local accumulators of [process_query]. *)
Record Turn : Type := {
  messages : list Message;
  final_text_parts : list string
}.

Definition to_tool_spec (tool : Tool) : ToolSpec :=
  {| spec_type := "function";
     spec_name := tool_name tool;
     spec_description := tool_description tool;
     spec_parameters := tool_inputSchema tool |}.

Definition to_entry (tc : ToolCall) : ToolCallEntry :=
  {| entry_id := tc_id tc;
     entry_type := "function";
     entry_name := tc_name tc;
     entry_arguments := tc_arguments tc |}.

(** [item.text if hasattr(item, 'text') else str(item)] *)
Definition item_text_or_str (item : ContentItem) : string :=
  match item_text item with
  | Some t => t
  | None => item_str item
  end.

(** The inner [for item in content] loop with its [texts.append]. *)
Definition collect_texts (content : list ContentItem) : list string :=
  fold_left (fun texts item => (texts ++ [item_text_or_str item])%list)
            content [].

(** Lines 116-132: the text extracted from a tool result. *)
Definition extract_text (tool_result : CallToolResult) : string :=
  match result_content tool_result with
  | Some content =>
      match content with
      | CStr s => s
      | CList items => str_join nl (collect_texts items)
      | COther printed => printed
      end
  | None => result_str tool_result
  end.

(** [f"[Error parsing arguments for {func_name}: {e}]"] *)
Definition parse_error_text (func_name : string) (e : Exn) : string :=
  "[Error parsing arguments for " ++ func_name ++ ": " ++ e ++ "]".

(** [f"[Tool execution error: {str(e)}]"] *)
Definition exec_error_text (e : Exn) : string :=
  "[Tool execution error: " ++ e ++ "]".

(** [f"[Called tool '{func_name}' with args {func_args}]"] *)
Definition trace_line {RT : PyRuntime} (func_name : string) (func_args : pyval)
  : string :=
  "[Called tool '" ++ func_name ++ "' with args " ++ py_format func_args ++ "]".

Definition first_request (msgs : list Message) (tools : list ToolSpec)
  : Request :=
  {| req_model := "qwen-max";
     req_messages := msgs;
     req_tools := Some tools;
     req_tool_choice := Some "auto";
     req_max_tokens := 1000 |}.

Definition second_request (msgs : list Message) : Request :=
  {| req_model := "qwen-max";
     req_messages := msgs;
     req_tools := None;
     req_tool_choice := None;
     req_max_tokens := 1000 |}.

(** [if content: final_text_parts.append(content)] *)
Definition append_if_content (content : option string) (parts : list string)
  : list string :=
  match content with
  | Some s => if truthy_str content then (parts ++ [s])%list else parts
  | None => parts
  end.

Section ProcessQuery.
Context {RT : PyRuntime} {W : Type} {C : Collaborators W}.

(** The body of [for tool_call in message.tool_calls] (lines 105-146).
    A [JSONDecodeError] appends its text to the output and [continue]s;
    any other exception of [json.loads] is not caught by line 108 and
    leaves the loop. *)
Definition dispatch_one (tool_call : ToolCall) (t : Turn) : M W Turn :=
  let func_name := tc_name tool_call in
  match json_loads (tc_arguments tool_call) with
  | DecodeError e =>
      ret {| messages := messages t;
             final_text_parts :=
               (final_text_parts t ++ [parse_error_text func_name e])%list |}
  | OtherError e => raise e
  | Parsed func_args =>
      result_content <-
        try_except
          (tool_result <- call_tool func_name func_args ;;
           ret (extract_text tool_result))
          (fun e => ret (exec_error_text e)) ;;
      ret {| messages :=
               (messages t ++ [ToolMsg (tc_id tool_call) result_content])%list;
             final_text_parts :=
               (final_text_parts t
                  ++ [trace_line func_name func_args; result_content])%list |}
  end.

(** The [for] loop over the tool calls, in list order. *)
Fixpoint dispatch (tool_calls : list ToolCall) (t : Turn) : M W Turn :=
  match tool_calls with
  | [] => ret t
  | tool_call :: rest =>
      t' <- dispatch_one tool_call t ;;
      dispatch rest t'
  end.

(** Lines 50-157: the turn, returning both accumulators. *)
Definition run_turn (query : string) : M W Turn :=
  let messages0 := [UserMsg query] in
  tools <- list_tools ;;
  let available_tools := map to_tool_spec tools in
  message <- create (first_request messages0 available_tools) ;;
  let parts0 := append_if_content (msg_content message) [] in
  if truthy_list (msg_tool_calls message) then
    let tool_calls := match msg_tool_calls message with
                      | Some l => l
                      | None => []
                      end in
    let messages1 :=
      (messages0 ++ [AssistantMsg (msg_content message)
                                  (map to_entry tool_calls)])%list in
    t <- dispatch tool_calls
           {| messages := messages1; final_text_parts := parts0 |} ;;
    final_message <- create (second_request (messages t)) ;;
    ret {| messages := messages t;
           final_text_parts :=
             append_if_content (msg_content final_message)
                               (final_text_parts t) |}
  else
    ret {| messages := messages0; final_text_parts := parts0 |}.

(** [process_query]: the answer is the output buffer joined by newlines. *)
Definition process_query (query : string) : M W string :=
  t <- run_turn query ;;
  ret (str_join nl (final_text_parts t)).
End ProcessQuery.

(** ** What a turn looks like from outside *)

(** [final_answer] is what [process_query] returns for a finished turn. *)
Definition final_answer (t : Turn) : string :=
  str_join nl (final_text_parts t).

(** The text of an optional content, [None] read as the empty text. *)
Definition content_text (content : option string) : string :=
  match content with
  | Some s => s
  | None => ""
  end.

(** The result text of one host invocation, whichever way it ended. *)
Definition result_text (r : Result CallToolResult) : string :=
  match r with
  | inr tool_result => extract_text tool_result
  | inl e => exec_error_text e
  end.

(** The normalization of a tool host response, following the wording of
    the specification: text verbatim; a sequence of items mapped to their
    text (or textual representation) and joined by newlines; otherwise the
    textual representation. *)
Definition normalize_spec (response : CallToolResult) : string :=
  match result_content response with
  | Some (CStr s) => s
  | Some (CList items) =>
      String.concat nl
        (map (fun item => match item_text item with
                          | Some t => t
                          | None => item_str item
                          end) items)
  | Some (COther printed) => printed
  | None => result_str response
  end.

(** The completion requests of a trace, in the order they were issued. *)
Fixpoint completion_requests (evs : list Event) : list Request :=
  match evs with
  | [] => []
  | EvCreate req _ :: rest => req :: completion_requests rest
  | _ :: rest => completion_requests rest
  end.

(** The tool host invocations of a trace, in the order they were issued. *)
Fixpoint host_invocations (evs : list Event) : list (string * pyval) :=
  match evs with
  | [] => []
  | EvCallTool name args _ :: rest => (name, args) :: host_invocations rest
  | _ :: rest => host_invocations rest
  end.

(** The tool-role entries of a history. *)
Fixpoint tool_entries (msgs : list Message) : list (string * string) :=
  match msgs with
  | [] => []
  | ToolMsg id content :: rest => (id, content) :: tool_entries rest
  | _ :: rest => tool_entries rest
  end.

(** What a collaborator answered, without what it was asked. *)
Inductive Response : Type :=
| RTools (r : Result (list Tool))
| RChat (r : Result ChatMessage)
| RCall (r : Result CallToolResult).

Definition response_of (ev : Event) : Response :=
  match ev with
  | EvListTools r => RTools r
  | EvCreate _ r => RChat r
  | EvCallTool _ _ r => RCall r
  end.

Section Shapes.
Context {RT : PyRuntime}.

(** The exception that leaves the loop over a batch, if any: what
    [json.loads] raises, other than [JSONDecodeError], on the first call
    where it does. *)
Fixpoint uncaught (tcs : list ToolCall) : option Exn :=
  match tcs with
  | [] => None
  | tc :: rest =>
      match json_loads (tc_arguments tc) with
      | OtherError e => Some e
      | _ => uncaught rest
      end
  end.

(** The calls of a batch that reach the tool host, with the parsed
    arguments: those whose arguments parse, up to the call, if any, where
    the loop is left. *)
Fixpoint parsed_calls (tcs : list ToolCall) : list (ToolCall * pyval) :=
  match tcs with
  | [] => []
  | tc :: rest =>
      match json_loads (tc_arguments tc) with
      | Parsed args => (tc, args) :: parsed_calls rest
      | DecodeError _ => parsed_calls rest
      | OtherError _ => []
      end
  end.

Definition call_events (cs : list (ToolCall * pyval))
           (rs : list (Result CallToolResult)) : list Event :=
  map (fun p => EvCallTool (tc_name (fst (fst p))) (snd (fst p)) (snd p))
      (combine cs rs).

Definition tool_messages (cs : list (ToolCall * pyval))
           (rs : list (Result CallToolResult)) : list Message :=
  map (fun p => ToolMsg (tc_id (fst (fst p))) (result_text (snd p)))
      (combine cs rs).

(** The lines a batch contributes to the output buffer, given the host's
    answers to the calls that reached it: one line for a call on whose
    arguments [json.loads] raised [JSONDecodeError], a trace line and the
    result text for a call whose arguments parse. *)
Fixpoint output_lines (tcs : list ToolCall)
         (rs : list (Result CallToolResult)) : list string :=
  match tcs with
  | [] => []
  | tc :: rest =>
      match json_loads (tc_arguments tc) with
      | DecodeError e =>
          parse_error_text (tc_name tc) e :: output_lines rest rs
      | OtherError _ => []
      | Parsed args =>
          match rs with
          | r :: rs' =>
              trace_line (tc_name tc) args :: result_text r
                :: output_lines rest rs'
          | [] => []
          end
      end
  end.

(** The events and the outcome of one turn on [q]: the catalog request
    failed; the first completion failed; the reply carried no tool call;
    it carried a batch, answered by the host with [rs], and the second
    completion came back as [r2]; or it carried a batch that the loop left
    on an exception of [json.loads], after the host had answered the calls
    before it with [rs]. *)
Inductive turn_shape (q : string) : list Event -> Result Turn -> Prop :=
| shape_catalog_failed e :
    turn_shape q [EvListTools (inl e)] (inl e)
| shape_round1_failed tools e :
    turn_shape q
      [EvListTools (inr tools);
       EvCreate (first_request [UserMsg q] (map to_tool_spec tools)) (inl e)]
      (inl e)
| shape_direct tools m :
    truthy_list (msg_tool_calls m) = false ->
    turn_shape q
      [EvListTools (inr tools);
       EvCreate (first_request [UserMsg q] (map to_tool_spec tools)) (inr m)]
      (inr {| messages := [UserMsg q];
              final_text_parts := append_if_content (msg_content m) [] |})
| shape_tools tools m tcs rs r2 hist :
    msg_tool_calls m = Some tcs ->
    tcs <> [] ->
    uncaught tcs = None ->
    length rs = length (parsed_calls tcs) ->
    hist = ([UserMsg q; AssistantMsg (msg_content m) (map to_entry tcs)]
              ++ tool_messages (parsed_calls tcs) rs)%list ->
    turn_shape q
      ([EvListTools (inr tools);
        EvCreate (first_request [UserMsg q] (map to_tool_spec tools)) (inr m)]
         ++ call_events (parsed_calls tcs) rs
         ++ [EvCreate (second_request hist) r2])%list
      (match r2 with
       | inl e => inl e
       | inr fm =>
           inr {| messages := hist;
                  final_text_parts :=
                    append_if_content (msg_content fm)
                      (append_if_content (msg_content m) []
                         ++ output_lines tcs rs)%list |}
       end)
| shape_batch_left tools m tcs rs e :
    msg_tool_calls m = Some tcs ->
    uncaught tcs = Some e ->
    length rs = length (parsed_calls tcs) ->
    turn_shape q
      ([EvListTools (inr tools);
        EvCreate (first_request [UserMsg q] (map to_tool_spec tools)) (inr m)]
         ++ call_events (parsed_calls tcs) rs)%list
      (inl e).
End Shapes.

(** ** Histories *)

(** Successive snapshots of a history that is only ever appended to: each
    one is the previous one followed by the entries added since. *)
Fixpoint grows (snapshots : list (list Message)) : Prop :=
  match snapshots with
  | a :: (b :: _) as rest =>
      (exists added, b = (a ++ added)%list) /\ grows rest
  | _ => True
  end.

(** [msg] was made during the turn on [q] whose events are [evs]: it is the
    user entry of [q], the assistant entry of a reply received in the turn,
    or the tool entry answering a call of such a reply with the result of a
    host invocation of the turn. *)
Definition entry_of_turn (q : string) (evs : list Event) (msg : Message)
  : Prop :=
  match msg with
  | UserMsg content => content = q
  | AssistantMsg content entries =>
      exists req m tcs,
        In (EvCreate req (inr m)) evs /\
        msg_tool_calls m = Some tcs /\
        content = msg_content m /\
        entries = map to_entry tcs
  | ToolMsg id content =>
      exists req m tcs tc args r,
        In (EvCreate req (inr m)) evs /\
        msg_tool_calls m = Some tcs /\
        In tc tcs /\
        id = tc_id tc /\
        In (EvCallTool (tc_name tc) args r) evs /\
        content = result_text r
  end.

Definition is_user (msg : Message) : bool :=
  match msg with
  | UserMsg _ => true
  | _ => false
  end.

(** A history that starts with the user entry of [q], holds no other user
    entry, and holds only entries made during the turn. *)
Definition fresh_history (q : string) (evs : list Event)
           (msgs : list Message) : Prop :=
  exists rest,
    msgs = UserMsg q :: rest /\
    Forall (fun msg => is_user msg = false /\ entry_of_turn q evs msg) rest.

(** ** A scripted collaborator and a small runtime for concrete runs *)

(** Collaborators that answer from a script, one response per request, the
    way a test double does; a request the script does not expect raises. *)
Definition scripted : Collaborators (list Response) :=
  {| session_list_tools s :=
       match s with
       | RTools r :: rest => (r, rest)
       | _ => (inl "unexpected list_tools", s)
       end;
     session_call_tool _ _ s :=
       match s with
       | RCall r :: rest => (r, rest)
       | _ => (inl "unexpected call_tool", s)
       end;
     chat_completions_create _ s :=
       match s with
       | RChat r :: rest => (r, rest)
       | _ => (inl "unexpected create", s)
       end |}.

Definition dq : string := String "034"%char EmptyString.

(** [{"city": "Paris"}] *)
Definition paris_blob : string :=
  "{" ++ dq ++ "city" ++ dq ++ ": " ++ dq ++ "Paris" ++ dq ++ "}".

Definition paris_args : pyval := PDict [("city", PStr "Paris")].

(** What [json.loads] says of a blob that does not start a JSON value. *)
Definition expecting_value : Exn := "Expecting value: line 1 column 1 (char 0)".

(** [c * n] *)
Fixpoint repeat_char (c : ascii) (n : nat) : string :=
  match n with
  | 0 => EmptyString
  | S n' => String c (repeat_char c n')
  end.

(** ['[' * 3000]: brackets nested deeper than [json.loads] follows. *)
Definition deep_blob : string := repeat_char "["%char 3000.

(** The [RecursionError] of [json.loads] on [deep_blob]. *)
Definition recursion_error : Exn :=
  "maximum recursion depth exceeded while decoding a JSON array from a unicode string".

(** [repr] of a parsed value, for strings that need no escaping. *)
Fixpoint py_repr (v : pyval) : string :=
  match v with
  | PNone => "None"
  | PBool true => "True"
  | PBool false => "False"
  | PInt z => DecimalString.NilEmpty.string_of_int (Z.to_int z)
  | PFloat printed => printed
  | PStr s => "'" ++ s ++ "'"
  | PList items => "[" ++ str_join ", " (map py_repr items) ++ "]"
  | PDict entries =>
      "{" ++ str_join ", "
               (map (fun kv : string * pyval => let (k, x) := kv in
                               "'" ++ k ++ "': " ++ py_repr x) entries)
          ++ "}"
  end.

(** A runtime that agrees with [json.loads] on the blobs used below: the
    Paris object, the empty object, the deep brackets, and text that is
    not JSON. *)
Definition example_runtime : PyRuntime :=
  {| json_loads s :=
       if String.eqb s paris_blob then Parsed paris_args
       else if String.eqb s "{}" then Parsed (PDict [])
       else if String.eqb s deep_blob then OtherError recursion_error
       else DecodeError expecting_value;
     py_format := py_repr |}.

Definition get_weather : Tool :=
  {| tool_name := "get_weather";
     tool_description := Some "Weather of a city";
     tool_inputSchema := PDict [("type", PStr "object")] |}.

Definition weather_call : ToolCall :=
  {| tc_id := "call_1"; tc_name := "get_weather"; tc_arguments := paris_blob |}.

Definition broken_call : ToolCall :=
  {| tc_id := "call_0"; tc_name := "get_weather"; tc_arguments := "not-json" |}.

Definition deep_call : ToolCall :=
  {| tc_id := "call_2"; tc_name := "get_weather"; tc_arguments := deep_blob |}.

Definition sunny : CallToolResult :=
  {| result_content :=
       Some (CList [{| item_text := Some "Sunny, 18C";
                       item_str := "TextContent" |}]);
     result_str := "CallToolResult" |}.

Definition fresh_world (script : list Response) : World (list Response) :=
  {| ext := script; trace := [] |}.

(** A run of [run_turn] and of [process_query] against a script. *)
Definition scripted_turn (q : string) (script : list Response)
  : Result Turn * World (list Response) :=
  run_turn (RT := example_runtime) (C := scripted) q (fresh_world script).

Definition scripted_query (q : string) (script : list Response)
  : Result string * World (list Response) :=
  process_query (RT := example_runtime) (C := scripted) q (fresh_world script).

(** Replies and scripts of the scenarios. *)

Definition hello_reply : ChatMessage :=
  {| msg_content := Some "Hello! How can I help?"; msg_tool_calls := None |}.

Definition empty_reply : ChatMessage :=
  {| msg_content := Some ""; msg_tool_calls := Some [] |}.

Definition closing_reply : ChatMessage :=
  {| msg_content := Some "It is sunny in Paris."; msg_tool_calls := None |}.

Definition batch_reply (tcs : list ToolCall) : ChatMessage :=
  {| msg_content := None; msg_tool_calls := Some tcs |}.

Definition hello_script : list Response :=
  [RTools (inr [get_weather]); RChat (inr hello_reply)].

Definition empty_script : list Response :=
  [RTools (inr [get_weather]); RChat (inr empty_reply)].

Definition weather_script : list Response :=
  [RTools (inr [get_weather]); RChat (inr (batch_reply [weather_call]));
   RCall (inr sunny); RChat (inr closing_reply)].

Definition broken_script : list Response :=
  [RTools (inr [get_weather]); RChat (inr (batch_reply [broken_call]));
   RChat (inr closing_reply)].

Definition mixed_script : list Response :=
  [RTools (inr [get_weather]);
   RChat (inr (batch_reply [broken_call; weather_call]));
   RCall (inr sunny); RChat (inr closing_reply)].

Definition failing_script : list Response :=
  [RTools (inr [get_weather]); RChat (inr (batch_reply [weather_call]));
   RCall (inl "connection lost"); RChat (inr closing_reply)].


(** The arguments of the first call are the deep brackets; the second call
    is well formed. *)
Definition deep_then_weather_script : list Response :=
  [RTools (inr [get_weather]);
   RChat (inr (batch_reply [deep_call; weather_call]));
   RCall (inr sunny); RChat (inr closing_reply)].

(** A stateless collaborator with fixed answers: it asks for the weather
    when it is offered tools and closes the turn when it is not. *)
Definition canned : Collaborators unit :=
  {| session_list_tools u := (inr [get_weather], u);
     session_call_tool _ _ u := (inr sunny, u);
     chat_completions_create req u :=
       match req_tools req with
       | Some _ => (inr (batch_reply [weather_call]), u)
       | None => (inr closing_reply, u)
       end |}.

Definition empty_turn : Turn := {| messages := []; final_text_parts := [] |}.

(** * The session around the turns

    [connect_to_server], [chat_loop], [cleanup] and [main]: the process
    that launches the tool server, reads queries from standard input and
    prints the answers.

    Text is a sequence of code points below 256; [str.strip],
    [str.lower] and [str.endswith] are modelled on them. *)

(** ** String methods *)

(** [c.isspace()] for a code point below 256: the ASCII whitespace
    (9-13, 28-32), NEL (133) and the no-break space (160). *)
Definition isspace (c : ascii) : bool :=
  let n := nat_of_ascii c in
  (((9 <=? n) && (n <=? 13)) || ((28 <=? n) && (n <=? 32))
   || (n =? 133) || (n =? 160))%nat.

(** [c.lower()] for a code point below 256: A-Z and the Latin-1 capitals
    (192-222 but the multiplication sign 215) move up by 32. *)
Definition lower_char (c : ascii) : ascii :=
  let n := nat_of_ascii c in
  if (((65 <=? n) && (n <=? 90))
      || ((192 <=? n) && (n <=? 222) && negb (n =? 215)))%nat
  then ascii_of_nat (n + 32)
  else c.

(** [s.lower()] *)
Fixpoint lower (s : string) : string :=
  match s with
  | EmptyString => EmptyString
  | String c rest => String (lower_char c) (lower rest)
  end.

(** [s.lstrip()] *)
Fixpoint lstrip (s : string) : string :=
  match s with
  | EmptyString => EmptyString
  | String c rest => if isspace c then lstrip rest else s
  end.

(** [s.rstrip()] *)
Fixpoint rstrip (s : string) : string :=
  match s with
  | EmptyString => EmptyString
  | String c rest =>
      match rstrip rest with
      | EmptyString => if isspace c then EmptyString else String c EmptyString
      | kept => String c kept
      end
  end.

(** [s.strip()] *)
Definition strip (s : string) : string := rstrip (lstrip s).

(** [s.endswith(suffix)] *)
Fixpoint endswith (s suffix : string) : bool :=
  if String.eqb s suffix then true
  else match s with
       | EmptyString => false
       | String _ rest => endswith rest suffix
       end.

(** Text made of whitespace only. *)
Fixpoint all_space (s : string) : bool :=
  match s with
  | EmptyString => true
  | String c rest => isspace c && all_space rest
  end.

(** ** The process *)

(** What a [raise] carries through the session: an [Exception], a
    [KeyboardInterrupt], or the [SystemExit] of [sys.exit(code)].
    [Unfinished] is not a Python exception: it marks a run of the model
    that was cut while [chat_loop] was still looping; no handler and no
    [finally] sees it. *)
Inductive Raised : Type :=
| RExc (e : Exn)
| RInterrupt
| RExit (code : nat)
| Unfinished.

(** What [input()] finds on standard input: a line, without its line end,
    or an interrupt while waiting.  The end of the list is the end of the
    file. *)
Inductive Input : Type :=
| Line (text : string)
| Interrupt.

(** [StdioServerParameters(command=..., args=..., env=...)] *)
Record StdioServerParameters : Type := {
  sp_command : string;
  sp_args : list string;
  sp_env : option (list (string * string))
}.

(** Construction, set-up and tear-down of the connections. *)
Inductive LifeEvent : Type :=
| EvNewClient (api_key : option string) (base_url : string) (r : Result unit)
| EvStdioClient (params : StdioServerParameters) (r : Result unit)
| EvClientSession (r : Result unit)
| EvInitialize (r : Result unit)
| EvAclose (r : Result unit).

(** The operations behind [MCPClient()], [connect_to_server] and
    [cleanup], as transitions of the hidden state: the [AsyncOpenAI]
    constructor, entering [stdio_client(server_params)] and
    [ClientSession(...)] on the exit stack, [session.initialize()], and
    [exit_stack.aclose()]. *)
Class Lifecycle (W : Type) : Type := {
  new_chat_client : option string -> string -> W -> Result unit * W;
  enter_stdio_client : StdioServerParameters -> W -> Result unit * W;
  enter_client_session : W -> Result unit * W;
  session_initialize : W -> Result unit * W;
  exit_stack_aclose : W -> Result unit * W
}.

Record Process (W : Type) : Type := {
  world : World W;
  stdin : list Input;
  stdout : list string;
  environ : list (string * string);
  lifecycle : list LifeEvent
}.

(** The monad of the session: the process state and what was raised. *)
Definition P (W A : Type) : Type := Process W -> (Raised + A) * Process W.

Definition pret {W A : Type} (a : A) : P W A := fun p => (inr a, p).

Definition praise {W A : Type} (r : Raised) : P W A := fun p => (inl r, p).

Definition pbind {W A B : Type} (c : P W A) (k : A -> P W B) : P W B :=
  fun p =>
    match c p with
    | (inr a, p') => k a p'
    | (inl r, p') => (inl r, p')
    end.

Declare Scope session_scope.
Delimit Scope session_scope with session.
Notation "x <~ c ;; k" := (pbind c (fun x => k))
  (at level 61, c at next level, right associativity) : session_scope.
Notation "c ;;; k" := (pbind c (fun _ => k))
  (at level 61, right associativity) : session_scope.
Open Scope session_scope.

(** [try: body  finally: final].  A body cut by [Unfinished] has not
    left the [try] yet. *)
Definition try_finally {W A : Type} (body : P W A) (final : P W unit)
  : P W A :=
  fun p =>
    match body p with
    | (inl Unfinished, p') => (inl Unfinished, p')
    | (r, p') =>
        match final p' with
        | (inr _, p'') => (r, p'')
        | (inl raised, p'') => (inl raised, p'')
        end
    end.

(** An [await] on the session or the chat client, inside the process. *)
Definition lift {W A : Type} (c : M W A) : P W A :=
  fun p =>
    let (r, w') := c (world p) in
    (match r with
     | inl e => inl (RExc e)
     | inr a => inr a
     end,
     {| world := w'; stdin := stdin p; stdout := stdout p;
        environ := environ p; lifecycle := lifecycle p |}).

(** [print(text)]: the text and a line feed. *)
Definition print {W : Type} (text : string) : P W unit :=
  fun p =>
    (inr tt,
     {| world := world p; stdin := stdin p;
        stdout := (stdout p ++ [(text ++ nl)%string])%list;
        environ := environ p; lifecycle := lifecycle p |}).

(** What [input()] raises at the end of the file. *)
Definition eof_error : Exn := "EOF when reading a line".

(** [input(prompt)]: writes the prompt, then reads one line. *)
Definition input {W : Type} (prompt : string) : P W string :=
  fun p =>
    let out := (stdout p ++ [prompt])%list in
    match stdin p with
    | Line text :: rest =>
        (inr text,
         {| world := world p; stdin := rest; stdout := out;
            environ := environ p; lifecycle := lifecycle p |})
    | Interrupt :: rest =>
        (inl RInterrupt,
         {| world := world p; stdin := rest; stdout := out;
            environ := environ p; lifecycle := lifecycle p |})
    | [] =>
        (inl (RExc eof_error),
         {| world := world p; stdin := []; stdout := out;
            environ := environ p; lifecycle := lifecycle p |})
    end.

(** [os.getenv(name)] *)
Fixpoint getenv (name : string) (env : list (string * string))
  : option string :=
  match env with
  | [] => None
  | (k, v) :: rest => if String.eqb k name then Some v else getenv name rest
  end.

(** One set-up or tear-down operation, recorded with its outcome. *)
Definition life {W : Type} (op : W -> Result unit * W)
           (event : Result unit -> LifeEvent) : P W unit :=
  fun p =>
    let (r, e') := op (ext (world p)) in
    (match r with
     | inl e => inl (RExc e)
     | inr _ => inr tt
     end,
     {| world := {| ext := e'; trace := trace (world p) |};
        stdin := stdin p; stdout := stdout p; environ := environ p;
        lifecycle := (lifecycle p ++ [event r])%list |}).

Definition base_url : string :=
  "https://dashscope.aliyuncs.com/compatible-mode/v1".

Definition extension_error : Exn := "Server script must be a .py or .js file".

Definition usage : string := "Usage: python client.py <path_to_server_script>".

Definition query_prompt : string := nl ++ "Query: ".

Definition started_banner : string :=
  nl ++ "MCP Client Started (using Bailian/Qwen via DashScope)!".

Definition quit_hint : string := "Type your queries or 'quit' to exit.".

(** What the body of the [while] asks for next. *)
Inductive LoopControl : Type :=
| Break
| Continue.

Section Session.
Context {RT : PyRuntime} {W : Type} {C : Collaborators W} {L : Lifecycle W}.

(** [MCPClient.__init__]: the chat client is built with the key found in
    the environment. *)
Definition new_client : P W unit :=
  fun p =>
    let api_key := getenv "DASHSCOPE_API_KEY" (environ p) in
    life (new_chat_client api_key base_url)
         (EvNewClient api_key base_url) p.

(** The text of [print("\nConnected to server with tools:", names)]. *)
Definition connected_line (tools : list Tool) : string :=
  nl ++ "Connected to server with tools:" ++ " "
     ++ py_format (PList (map (fun tool => PStr (tool_name tool)) tools)).

(** [connect_to_server] (lines 26-46) *)
Definition connect_to_server (server_script_path : string) : P W unit :=
  if negb (endswith server_script_path ".py"
           || endswith server_script_path ".js")
  then praise (RExc extension_error)
  else
    let command :=
      if endswith server_script_path ".py" then "python" else "node" in
    let server_params :=
      {| sp_command := command;
         sp_args := [server_script_path];
         sp_env := None |} in
    life (enter_stdio_client server_params) (EvStdioClient server_params) ;;;
    life enter_client_session EvClientSession ;;;
    life session_initialize EvInitialize ;;;
    tools <~ lift list_tools ;;
    print (connected_line tools).

(** The [try] block inside the [while] of [chat_loop] (lines 167-171). *)
Definition loop_body : P W LoopControl :=
  line <~ input query_prompt ;;
  let query := strip line in
  if String.eqb (lower query) "quit" then pret Break
  else
    response <~ lift (process_query query) ;;
    print (nl ++ "Response:" ++ nl ++ response) ;;;
    pret Continue.

(** The [while True] of [chat_loop] with its two handlers, run for at most
    [fuel] iterations. *)
Fixpoint loop (fuel : nat) : P W unit :=
  match fuel with
  | 0 => praise Unfinished
  | S fuel' =>
      fun p =>
        match loop_body p with
        | (inr Break, p') => (inr tt, p')
        | (inr Continue, p') => loop fuel' p'
        | (inl RInterrupt, p') => (inr tt, p')
        | (inl (RExc e), p') =>
            (print (nl ++ "Error: " ++ e) ;;; loop fuel') p'
        | (inl other, p') => (inl other, p')
        end
  end.

(** [chat_loop] (lines 160-175) *)
Definition chat_loop (fuel : nat) : P W unit :=
  print started_banner ;;;
  print quit_hint ;;;
  loop fuel.

(** [cleanup] (lines 177-179) *)
Definition cleanup : P W unit := life exit_stack_aclose EvAclose.

(** [main] (lines 182-192), on [sys.argv]. *)
Definition main (fuel : nat) (argv : list string) : P W unit :=
  if (List.length argv <? 2)%nat then
    print usage ;;;
    praise (RExit 1)
  else
    new_client ;;;
    try_finally
      (connect_to_server (nth 1 argv "") ;;;
       chat_loop fuel)
      cleanup.
End Session.

(** ** What a session looks like from outside *)

(** Whether a line ends the session. *)
Definition is_quit (line : string) : bool :=
  String.eqb (lower (strip line)) "quit".

(** Whether an input ends the session: an interrupt, or a quit line. *)
Definition ends_session (i : Input) : bool :=
  match i with
  | Interrupt => true
  | Line text => is_quit text
  end.

(** What the loop prints after a turn. *)
Definition report (r : Result string) : string :=
  match r with
  | inr response => nl ++ "Response:" ++ nl ++ response ++ nl
  | inl e => nl ++ "Error: " ++ e ++ nl
  end.

(** The catalog requests of a trace. *)
Fixpoint catalog_requests (evs : list Event) : nat :=
  match evs with
  | [] => 0
  | EvListTools _ :: rest => S (catalog_requests rest)
  | _ :: rest => catalog_requests rest
  end.

(** The tear-downs of a lifecycle log. *)
Fixpoint closes (evs : list LifeEvent) : nat :=
  match evs with
  | [] => 0
  | EvAclose _ :: rest => S (closes rest)
  | _ :: rest => closes rest
  end.

Section Replay.
Context {RT : PyRuntime} {W : Type} {C : Collaborators W}.

(** The turns of a list of lines, one after the other, each on the world
    the previous one left: the final world and what the loop printed. *)
Fixpoint replay (lines : list string) (w : World W)
  : World W * list string :=
  match lines with
  | [] => (w, [])
  | line :: rest =>
      let (r, w1) := process_query (strip line) w in
      let (w2, out) := replay rest w1 in
      (w2, query_prompt :: report r :: out)
  end.
End Replay.

(** Set-up and tear-down that always succeed, for concrete runs. *)
Definition easy_life : Lifecycle (list Response) :=
  {| new_chat_client _ _ s := (inr tt, s);
     enter_stdio_client _ s := (inr tt, s);
     enter_client_session s := (inr tt, s);
     session_initialize s := (inr tt, s);
     exit_stack_aclose s := (inr tt, s) |}.

Definition fresh_process (script : list Response) (lines : list Input)
  : Process (list Response) :=
  {| world := fresh_world script; stdin := lines; stdout := [];
     environ := [("DASHSCOPE_API_KEY", "sk-test")]; lifecycle := [] |}.

(** * Properties *)

Unset Implicit Arguments.

(** ** Joining and collecting text *)

Lemma str_join_concat (sep : string) (items : list string) :
  str_join sep items = String.concat sep items.
Proof.
  induction items as [|x rest IH]; [reflexivity|].
  destruct rest as [|y rest]; [reflexivity|].
  change (str_join sep (x :: y :: rest))
    with (x ++ sep ++ str_join sep (y :: rest)).
  rewrite IH. reflexivity.
Qed.

Lemma str_join_single (sep x : string) : str_join sep [x] = x.
Proof. reflexivity. Qed.

Lemma collect_from (items : list ContentItem) (acc : list string) :
  fold_left (fun texts item => (texts ++ [item_text_or_str item])%list)
            items acc
  = (acc ++ map item_text_or_str items)%list.
Proof.
  revert acc. induction items as [|item rest IH]; intros acc; simpl.
  - now rewrite app_nil_r.
  - rewrite IH, <- app_assoc. reflexivity.
Qed.

Lemma collect_texts_map (items : list ContentItem) :
  collect_texts items = map item_text_or_str items.
Proof. unfold collect_texts. now rewrite collect_from. Qed.

Lemma extract_text_spec (response : CallToolResult) :
  extract_text response = normalize_spec response.
Proof.
  unfold extract_text, normalize_spec.
  destruct (result_content response) as [[s|items|printed]|]; try reflexivity.
  now rewrite collect_texts_map, str_join_concat.
Qed.

Lemma append_if_content_falsy (content : option string) (parts : list string) :
  truthy_str content = false -> append_if_content content parts = parts.
Proof.
  unfold append_if_content. destruct content as [s|]; [|reflexivity].
  intros ->. reflexivity.
Qed.

Lemma append_if_content_text (content : option string) :
  str_join nl (append_if_content content []) = content_text content.
Proof. destruct content as [[|a s]|]; reflexivity. Qed.

(** ** Reading a trace *)

Lemma completion_requests_app (xs ys : list Event) :
  completion_requests (xs ++ ys)
  = (completion_requests xs ++ completion_requests ys)%list.
Proof.
  induction xs as [|[r|req r|name args r] xs IH]; simpl; auto.
  now rewrite IH.
Qed.

Lemma host_invocations_app (xs ys : list Event) :
  host_invocations (xs ++ ys)
  = (host_invocations xs ++ host_invocations ys)%list.
Proof.
  induction xs as [|[r|req r|name args r] xs IH]; simpl; auto.
  now rewrite IH.
Qed.

Lemma tool_entries_app (xs ys : list Message) :
  tool_entries (xs ++ ys) = (tool_entries xs ++ tool_entries ys)%list.
Proof.
  induction xs as [|[c|c tcs|id c] xs IH]; simpl; auto.
  now rewrite IH.
Qed.

Section Batch.
Context {RT : PyRuntime}.

Lemma uncaught_app (xs ys : list ToolCall) :
  uncaught (xs ++ ys)
  = match uncaught xs with
    | Some e => Some e
    | None => uncaught ys
    end.
Proof.
  induction xs as [|tc xs IH]; simpl; auto.
  destruct (json_loads (tc_arguments tc)); auto.
Qed.

Lemma parsed_calls_app (xs ys : list ToolCall) :
  uncaught xs = None ->
  parsed_calls (xs ++ ys) = (parsed_calls xs ++ parsed_calls ys)%list.
Proof.
  induction xs as [|tc xs IH]; simpl; auto.
  destruct (json_loads (tc_arguments tc)); simpl; intros Hu;
    try discriminate Hu; now rewrite IH.
Qed.

Lemma parsed_calls_length (tcs : list ToolCall) :
  length (parsed_calls tcs) <= length tcs.
Proof.
  induction tcs as [|tc tcs IH]; simpl; auto.
  destruct (json_loads (tc_arguments tc)); simpl; lia.
Qed.

Lemma call_events_requests cs rs :
  completion_requests (call_events cs rs) = [].
Proof.
  unfold call_events.
  induction (combine cs rs) as [|p l IH]; simpl; auto.
Qed.

Lemma call_events_invocations cs rs :
  length rs = length cs ->
  host_invocations (call_events cs rs)
  = map (fun c => (tc_name (fst c), snd c)) cs.
Proof.
  unfold call_events. revert rs.
  induction cs as [|c cs IH]; intros [|r rs]; simpl; try discriminate; auto.
  intros Hlen. f_equal. apply IH. lia.
Qed.

Lemma tool_messages_entries cs rs :
  tool_entries (tool_messages cs rs)
  = map (fun p => (tc_id (fst (fst p)), result_text (snd p)))
        (combine cs rs).
Proof.
  unfold tool_messages.
  induction (combine cs rs) as [|p l IH]; simpl; auto. now rewrite IH.
Qed.

Lemma tool_messages_length cs rs :
  length rs = length cs -> length (tool_messages cs rs) = length cs.
Proof.
  intros Hlen. unfold tool_messages.
  rewrite length_map, length_combine. lia.
Qed.

Lemma output_lines_app xs ys rs1 rs2 :
  uncaught xs = None ->
  length rs1 = length (parsed_calls xs) ->
  output_lines (xs ++ ys) (rs1 ++ rs2)
  = (output_lines xs rs1 ++ output_lines ys rs2)%list.
Proof.
  revert rs1. induction xs as [|tc xs IH]; intros rs1; simpl.
  - intros _. destruct rs1; [reflexivity | discriminate].
  - destruct (json_loads (tc_arguments tc)) as [args|e|e]; simpl.
    + destruct rs1 as [|r rs1]; simpl; [discriminate|].
      intros Hu Hlen. rewrite IH by (auto; lia). reflexivity.
    + intros Hu Hlen. now rewrite IH.
    + discriminate.
Qed.
End Batch.

(** ** The dispatch loop *)

Section Dispatch.
Context {RT : PyRuntime} {W : Type} {C : Collaborators W}.

(** A call on whose arguments [json.loads] raises [JSONDecodeError]
    touches neither the world nor the history: it only adds one line to
    the output. *)
Lemma dispatch_one_parse_error tc t (w : World W) e :
  json_loads (tc_arguments tc) = DecodeError e ->
  dispatch_one tc t w
  = (inr {| messages := messages t;
            final_text_parts :=
              (final_text_parts t ++ [parse_error_text (tc_name tc) e])%list |},
     w).
Proof. intros Hp. unfold dispatch_one. rewrite Hp. reflexivity. Qed.

(** A call on whose arguments [json.loads] raises anything else raises it,
    touching nothing. *)
Lemma dispatch_one_uncaught tc t (w : World W) e :
  json_loads (tc_arguments tc) = OtherError e ->
  dispatch_one tc t w = (inl e, w).
Proof. intros Hp. unfold dispatch_one. rewrite Hp. reflexivity. Qed.

(** A call whose arguments parse reaches the host once; whatever the
    host does, the loop body returns normally. *)
Lemma dispatch_one_parsed tc t (w : World W) args r e' :
  json_loads (tc_arguments tc) = Parsed args ->
  session_call_tool (tc_name tc) args (ext w) = (r, e') ->
  dispatch_one tc t w
  = (inr {| messages :=
              (messages t ++ [ToolMsg (tc_id tc) (result_text r)])%list;
            final_text_parts :=
              (final_text_parts t
                 ++ [trace_line (tc_name tc) args; result_text r])%list |},
     {| ext := e';
        trace := (trace w ++ [EvCallTool (tc_name tc) args r])%list |}).
Proof.
  intros Hp Hc. unfold dispatch_one. rewrite Hp.
  unfold bind, try_except, call_tool, ret. rewrite Hc.
  destruct r as [e|tool_result]; reflexivity.
Qed.

Lemma dispatch_cons tc rest t (w : World W) t1 w1 :
  dispatch_one tc t w = (inr t1, w1) ->
  dispatch (tc :: rest) t w = dispatch rest t1 w1.
Proof. intros H1. simpl. unfold bind. rewrite H1. reflexivity. Qed.

Lemma dispatch_app pre post t (w : World W) t1 w1 :
  dispatch pre t w = (inr t1, w1) ->
  dispatch (pre ++ post) t w = dispatch post t1 w1.
Proof.
  revert t w. induction pre as [|tc pre IH]; intros t w; simpl.
  - unfold ret. intros [= -> ->]. reflexivity.
  - unfold bind. destruct (dispatch_one tc t w) as [[e|t'] w'].
    + discriminate.
    + apply IH.
Qed.

(** The loop as a whole.  It raises only what [json.loads] raised, other
    than [JSONDecodeError], on the first call where it did; up to there,
    the host is invoked once for each call whose arguments parse, in batch
    order.  When the loop completes, one tool entry per such call has been
    appended to the history, and the output has the lines of
    [output_lines]. *)
Lemma dispatch_spec tcs t (w : World W) :
  exists rs w',
    length rs = length (parsed_calls tcs) /\
    trace w' = (trace w ++ call_events (parsed_calls tcs) rs)%list /\
    dispatch tcs t w
    = (match uncaught tcs with
       | Some e => inl e
       | None =>
           inr {| messages :=
                    (messages t ++ tool_messages (parsed_calls tcs) rs)%list;
                  final_text_parts :=
                    (final_text_parts t ++ output_lines tcs rs)%list |}
       end,
       w').
Proof.
  revert t w. induction tcs as [|tc rest IH]; intros t w.
  - exists [], w. simpl. rewrite !app_nil_r.
    destruct t; repeat split; reflexivity.
  - destruct (json_loads (tc_arguments tc)) as [args|e|e] eqn:Hp.
    + destruct (session_call_tool (tc_name tc) args (ext w)) as [r e'] eqn:Hc.
      pose proof (dispatch_one_parsed tc t w args r e' Hp Hc) as H1.
      match type of H1 with _ = (inr ?t1, ?w1) =>
        destruct (IH t1 w1) as (rs & w' & Hlen & Htr & Hrun) end.
      exists (r :: rs), w'.
      simpl parsed_calls. simpl output_lines. simpl uncaught. rewrite Hp.
      repeat split.
      * simpl. now rewrite Hlen.
      * rewrite Htr. simpl. now rewrite <- app_assoc.
      * rewrite (dispatch_cons _ rest _ _ _ _ H1), Hrun.
        destruct (uncaught rest); [reflexivity|]. simpl.
        now rewrite <- !app_assoc.
    + destruct (IH {| messages := messages t;
                      final_text_parts :=
                        (final_text_parts t
                           ++ [parse_error_text (tc_name tc) e])%list |} w)
        as (rs & w' & Hlen & Htr & Hrun).
      exists rs, w'.
      simpl parsed_calls. simpl output_lines. simpl uncaught. rewrite Hp.
      repeat split; auto.
      rewrite (dispatch_cons _ rest _ _ _ _
                 (dispatch_one_parse_error tc t w e Hp)).
      rewrite Hrun. destruct (uncaught rest); [reflexivity|]. simpl.
      now rewrite <- app_assoc.
    + exists [], w.
      simpl parsed_calls. simpl uncaught. rewrite Hp.
      repeat split.
      * simpl. now rewrite app_nil_r.
      * simpl. unfold bind.
        now rewrite (dispatch_one_uncaught tc t w e Hp).
Qed.

(** The loop completes exactly when [json.loads] raises nothing but
    [JSONDecodeError] on the arguments of the batch. *)
Lemma dispatch_returns_iff tcs t (w : World W) :
  (exists t' w', dispatch tcs t w = (inr t', w')) <-> uncaught tcs = None.
Proof.
  destruct (dispatch_spec tcs t w) as (rs & w' & _ & _ & Hrun).
  rewrite Hrun. destruct (uncaught tcs) as [e|].
  - split; [intros (t' & w'' & Heq); discriminate Heq | discriminate].
  - split; [reflexivity | intros _; eauto].
Qed.

(** ** The turn *)

(** Every run of [run_turn] extends the trace by the events of one of the
    five shapes, and returns the outcome of that shape. *)
Lemma run_turn_sound q (w : World W) :
  exists evs,
    trace (snd (run_turn q w)) = (trace w ++ evs)%list /\
    turn_shape q evs (fst (run_turn q w)).
Proof.
  unfold run_turn, bind, list_tools, create, ret.
  destruct (session_list_tools (ext w)) as [[e|tools] e1].
  { exists [EvListTools (inl e)]. split; [reflexivity | constructor]. }
  simpl ext.
  destruct (chat_completions_create
              (first_request [UserMsg q] (map to_tool_spec tools)) e1)
    as [[e|m] e2].
  { eexists. split; [simpl; rewrite <- app_assoc; reflexivity |].
    constructor. }
  destruct (truthy_list (msg_tool_calls m)) eqn:Htc.
  2:{ eexists. split; [simpl; rewrite <- app_assoc; reflexivity |].
      now constructor. }
  destruct (msg_tool_calls m) as [[|tc tcs]|] eqn:Hcalls; try discriminate.
  assert (Hne : tc :: tcs <> []) by discriminate.
  remember (tc :: tcs) as batch eqn:Hbatch. clear Hbatch Htc.
  match goal with |- context [dispatch batch ?t ?w0] =>
    destruct (dispatch_spec batch t w0) as (rs & w' & Hlen & Htr & Hrun) end.
  rewrite Hrun. destruct (uncaught batch) as [e|] eqn:Hu.
  { exists ([EvListTools (inr tools);
             EvCreate (first_request [UserMsg q] (map to_tool_spec tools))
                      (inr m)]
              ++ call_events (parsed_calls batch) rs)%list.
    cbn [fst snd]. split.
    - rewrite Htr. cbn [trace]. rewrite <- !app_assoc. reflexivity.
    - exact (@shape_batch_left RT q tools m batch rs e Hcalls Hu Hlen). }
  cbn [messages final_text_parts].
  set (hist := ([UserMsg q]
                  ++ [AssistantMsg (msg_content m) (map to_entry batch)]
                  ++ tool_messages (parsed_calls batch) rs)%list).
  replace (([UserMsg q]
              ++ [AssistantMsg (msg_content m) (map to_entry batch)])
             ++ tool_messages (parsed_calls batch) rs)%list
    with hist by (unfold hist; now rewrite <- app_assoc).
  destruct (chat_completions_create (second_request hist) (ext w'))
    as [r2 e3] eqn:Hc2.
  exists ([EvListTools (inr tools);
           EvCreate (first_request [UserMsg q] (map to_tool_spec tools))
                    (inr m)]
            ++ call_events (parsed_calls batch) rs
            ++ [EvCreate (second_request hist) r2])%list.
  pose proof (@shape_tools RT q tools m batch rs r2 hist Hcalls Hne Hu Hlen
                eq_refl) as Hs.
  destruct r2 as [e|fm]; cbn [fst snd trace]; (split; [|exact Hs]);
    rewrite Htr; cbn [trace]; rewrite <- !app_assoc; reflexivity.
Qed.

Lemma process_query_run_turn q (w : World W) :
  process_query q w
  = (match fst (run_turn q w) with
     | inl e => inl e
     | inr t => inr (final_answer t)
     end, snd (run_turn q w)).
Proof.
  unfold process_query, bind, ret, final_answer.
  destruct (run_turn q w) as [[e|t] w']; reflexivity.
Qed.
End Dispatch.

Section Turn.
Context {RT : PyRuntime} {W : Type} {C : Collaborators W}.

(** A reply without tool calls ends the turn after one completion. *)
Lemma run_turn_direct q (w : World W) tools e1 m e2 :
  session_list_tools (ext w) = (inr tools, e1) ->
  chat_completions_create
    (first_request [UserMsg q] (map to_tool_spec tools)) e1 = (inr m, e2) ->
  truthy_list (msg_tool_calls m) = false ->
  run_turn q w
  = (inr {| messages := [UserMsg q];
            final_text_parts := append_if_content (msg_content m) [] |},
     {| ext := e2;
        trace :=
          (trace w
             ++ [EvListTools (inr tools);
                 EvCreate (first_request [UserMsg q]
                             (map to_tool_spec tools)) (inr m)])%list |}).
Proof.
  intros Hl Hc Hf. unfold run_turn, bind, list_tools, create, ret.
  rewrite Hl. cbn [ext]. rewrite Hc, Hf. cbn [trace].
  now rewrite <- app_assoc.
Qed.

(** A reply with a batch of tool calls on whose arguments [json.loads]
    raises nothing but [JSONDecodeError]: the batch is dispatched, the
    second completion is requested on the grown history, and only that
    request can make the turn fail. *)
Lemma run_turn_batch q (w : World W) tools e1 m e2 tcs :
  session_list_tools (ext w) = (inr tools, e1) ->
  chat_completions_create
    (first_request [UserMsg q] (map to_tool_spec tools)) e1 = (inr m, e2) ->
  msg_tool_calls m = Some tcs ->
  tcs <> [] ->
  uncaught tcs = None ->
  exists rs r2 hist,
    length rs = length (parsed_calls tcs) /\
    hist = ([UserMsg q; AssistantMsg (msg_content m) (map to_entry tcs)]
              ++ tool_messages (parsed_calls tcs) rs)%list /\
    trace (snd (run_turn q w))
    = (trace w
         ++ [EvListTools (inr tools);
             EvCreate (first_request [UserMsg q] (map to_tool_spec tools))
                      (inr m)]
         ++ call_events (parsed_calls tcs) rs
         ++ [EvCreate (second_request hist) r2])%list /\
    fst (run_turn q w)
    = match r2 with
      | inl e => inl e
      | inr fm =>
          inr {| messages := hist;
                 final_text_parts :=
                   append_if_content (msg_content fm)
                     (append_if_content (msg_content m) []
                        ++ output_lines tcs rs)%list |}
      end.
Proof.
  intros Hl Hc Hcalls Hne Hu.
  assert (Htc : truthy_list (msg_tool_calls m) = true).
  { rewrite Hcalls. destruct tcs; [contradiction | reflexivity]. }
  unfold run_turn, bind, list_tools, create, ret.
  rewrite Hl. cbn [ext]. rewrite Hc, Htc, Hcalls.
  match goal with |- context [dispatch tcs ?t ?w0] =>
    destruct (dispatch_spec tcs t w0) as (rs & w' & Hlen & Htr & Hrun) end.
  rewrite Hrun, Hu. cbn [messages final_text_parts].
  set (hist := ([UserMsg q; AssistantMsg (msg_content m) (map to_entry tcs)]
                  ++ tool_messages (parsed_calls tcs) rs)%list).
  replace (([UserMsg q]
              ++ [AssistantMsg (msg_content m) (map to_entry tcs)])
             ++ tool_messages (parsed_calls tcs) rs)%list
    with hist by reflexivity.
  destruct (chat_completions_create (second_request hist) (ext w'))
    as [r2 e3] eqn:Hc2.
  exists rs, r2, hist. repeat split; auto.
  - destruct r2; cbn [fst snd trace]; rewrite Htr; cbn [trace];
      rewrite <- !app_assoc; reflexivity.
  - destruct r2; reflexivity.
Qed.

(** A reply with a batch that the loop leaves on an exception of
    [json.loads]: the turn raises it, after the host was invoked for the
    calls before, and no second completion is requested. *)
Lemma run_turn_batch_left q (w : World W) tools e1 m e2 tcs e :
  session_list_tools (ext w) = (inr tools, e1) ->
  chat_completions_create
    (first_request [UserMsg q] (map to_tool_spec tools)) e1 = (inr m, e2) ->
  msg_tool_calls m = Some tcs ->
  uncaught tcs = Some e ->
  exists rs,
    length rs = length (parsed_calls tcs) /\
    trace (snd (run_turn q w))
    = (trace w
         ++ [EvListTools (inr tools);
             EvCreate (first_request [UserMsg q] (map to_tool_spec tools))
                      (inr m)]
         ++ call_events (parsed_calls tcs) rs)%list /\
    fst (run_turn q w) = inl e.
Proof.
  intros Hl Hc Hcalls Hu.
  assert (Htc : truthy_list (msg_tool_calls m) = true).
  { rewrite Hcalls. destruct tcs; [discriminate Hu | reflexivity]. }
  unfold run_turn, bind, list_tools, create, ret.
  rewrite Hl. cbn [ext]. rewrite Hc, Htc, Hcalls.
  match goal with |- context [dispatch tcs ?t ?w0] =>
    destruct (dispatch_spec tcs t w0) as (rs & w' & Hlen & Htr & Hrun) end.
  rewrite Hrun, Hu. exists rs. cbn [fst snd]. repeat split; auto.
  rewrite Htr. cbn [trace]. now rewrite <- !app_assoc.
Qed.
End Turn.

(** ** Facts about strings and zipped lists *)

Lemma prefix_app (p rest : string) : String.prefix p (p ++ rest) = true.
Proof.
  induction p as [|a p IH]; simpl.
  - destruct rest; reflexivity.
  - destruct (Ascii.ascii_dec a a) as [_|Hne]; [exact IH | contradiction].
Qed.

Lemma string_app_assoc (a b c : string) : (a ++ b) ++ c = a ++ b ++ c.
Proof. induction a as [|x a IH]; simpl; [reflexivity | now rewrite IH]. Qed.

Lemma parse_error_text_prefix (func_name : string) (e : Exn) :
  String.prefix ("[Error parsing arguments for " ++ func_name ++ ":")
                (parse_error_text func_name e) = true.
Proof.
  unfold parse_error_text.
  replace ("[Error parsing arguments for " ++ func_name ++ ": " ++ e ++ "]")
    with (("[Error parsing arguments for " ++ func_name ++ ":")
            ++ " " ++ e ++ "]").
  - apply prefix_app.
  - rewrite string_app_assoc. f_equal. now rewrite string_app_assoc.
Qed.

Lemma combine_firstn_skipn {A B : Type} (xs ys : list A) (rs : list B) :
  length rs = length (xs ++ ys) ->
  combine (xs ++ ys) rs
  = (combine xs (firstn (length xs) rs)
       ++ combine ys (skipn (length xs) rs))%list.
Proof.
  revert rs. induction xs as [|x xs IH]; intros rs Hlen; simpl.
  - reflexivity.
  - destruct rs as [|r rs]; simpl in *; [discriminate|].
    f_equal. apply IH. lia.
Qed.

Lemma responses_of_call_events {RT : PyRuntime} cs rs :
  length rs = length cs ->
  map response_of (call_events cs rs) = map RCall rs.
Proof.
  unfold call_events. revert rs.
  induction cs as [|c cs IH]; intros [|r rs]; simpl; try discriminate; auto.
  intros Hlen. f_equal. apply IH. lia.
Qed.

Lemma map_RCall_inj (rs rs' : list (Result CallToolResult)) (x x' : Response)
      (tail tail' : list Response) :
  (forall r, x <> RCall r) -> (forall r, x' <> RCall r) ->
  (map RCall rs ++ x :: tail = map RCall rs' ++ x' :: tail')%list ->
  rs = rs' /\ x = x' /\ tail = tail'.
Proof.
  intros Hx Hx'. revert rs'.
  induction rs as [|r rs IH]; intros [|r' rs']; simpl; intros Heq.
  - injection Heq as -> ->. auto.
  - injection Heq as -> _. now destruct (Hx r').
  - injection Heq as <- _. now destruct (Hx' r).
  - injection Heq as -> Heq. destruct (IH _ Heq) as (-> & -> & ->). auto.
Qed.

(** ** Two turns that get the same answers from their collaborators *)

Lemma map_RCall_eq (rs rs' : list (Result CallToolResult)) :
  map RCall rs = map RCall rs' -> rs = rs'.
Proof.
  revert rs'. induction rs as [|r rs IH]; intros [|r' rs']; simpl;
    intros Heq; try discriminate Heq; auto.
  injection Heq as -> Heq. now rewrite (IH _ Heq).
Qed.

Lemma uncaught_nonempty {RT : PyRuntime} tcs e :
  uncaught tcs = Some e -> truthy_list (Some tcs) = true.
Proof. destruct tcs; [discriminate | reflexivity]. Qed.

Lemma turn_shape_deterministic {RT : PyRuntime} q evs1 evs2 res1 res2 :
  turn_shape q evs1 res1 ->
  turn_shape q evs2 res2 ->
  map response_of evs1 = map response_of evs2 ->
  evs1 = evs2 /\ res1 = res2.
Proof.
  intros H1 H2.
  destruct H1 as [e|tools e|tools m Hf
                 |tools m tcs rs r2 hist Hc Hne Hu Hlen Hh
                 |tools m tcs rs e Hc Hu Hlen];
    destruct H2 as [e'|tools' e'|tools' m' Hf'
                   |tools' m' tcs' rs' r2' hist' Hc' Hne' Hu' Hlen' Hh'
                   |tools' m' tcs' rs' e' Hc' Hu' Hlen'];
    simpl; intros Heq; try discriminate Heq.
  - injection Heq as ->. auto.
  - injection Heq as -> ->. auto.
  - injection Heq as -> ->. auto.
  - injection Heq as _ -> _. rewrite Hc' in Hf.
    destruct tcs'; [contradiction | discriminate].
  - injection Heq as _ -> _. rewrite Hc' in Hf.
    now rewrite (uncaught_nonempty tcs' e' Hu') in Hf.
  - injection Heq as _ -> _. rewrite Hc in Hf'.
    destruct tcs; [contradiction | discriminate].
  - injection Heq as -> -> Heq.
    rewrite Hc in Hc'. injection Hc' as <-.
    rewrite !map_app, !responses_of_call_events in Heq by assumption.
    simpl in Heq.
    apply map_RCall_inj in Heq; try (intros r; discriminate).
    destruct Heq as (-> & Hr & _). injection Hr as ->.
    subst hist hist'. auto.
  - injection Heq as _ -> _.
    rewrite Hc in Hc'. injection Hc' as <-. rewrite Hu in Hu'. discriminate.
  - injection Heq as _ -> _. rewrite Hc in Hf'.
    now rewrite (uncaught_nonempty tcs e Hu) in Hf'.
  - injection Heq as _ -> _.
    rewrite Hc in Hc'. injection Hc' as <-. rewrite Hu in Hu'. discriminate.
  - injection Heq as -> -> Heq.
    rewrite Hc in Hc'. injection Hc' as <-.
    rewrite Hu in Hu'. injection Hu' as <-.
    rewrite !responses_of_call_events in Heq by assumption.
    apply map_RCall_eq in Heq. subst rs'. auto.
Qed.

(** * The claims *)

(** ** Tool entries of the history *)

(** In a turn whose first reply carries a batch, the history sent with the
    second completion holds one tool entry per call whose arguments parse,
    carrying that call's id, in batch order: as many tool entries as calls
    only when every call parses. *)
Lemma tool_entries_of_batch {RT : PyRuntime} q m tcs rs :
  length rs = length (parsed_calls tcs) ->
  map fst
      (tool_entries
         ([UserMsg q; AssistantMsg (msg_content m) (map to_entry tcs)]
            ++ tool_messages (parsed_calls tcs) rs))
  = map (fun c => tc_id (fst c)) (parsed_calls tcs).
Proof.
  intros Hlen. cbn [app tool_entries]. rewrite tool_messages_entries.
  revert rs Hlen.
  induction (parsed_calls tcs) as [|c cs IH]; intros [|r rs]; simpl;
    try discriminate; auto.
  intros Hlen. f_equal. apply IH. lia.
Qed.

(** The scenarios of the specification, run against scripts. *)

Example scenario_weather :
  fst (scripted_query "What's the weather in Paris?" weather_script)
  = inr (str_join nl
           ["[Called tool 'get_weather' with args {'city': 'Paris'}]";
            "Sunny, 18C"; "It is sunny in Paris."]).
Proof. reflexivity. Qed.

Example scenario_hello :
  scripted_query "Hello" hello_script
  = (inr "Hello! How can I help?",
     {| ext := [];
        trace := [EvListTools (inr [get_weather]);
                  EvCreate (first_request [UserMsg "Hello"]
                              [to_tool_spec get_weather])
                           (inr hello_reply)] |}).
Proof. reflexivity. Qed.

Example scenario_mixed_batch :
  exists t w',
    scripted_turn "Weather?" mixed_script = (inr t, w') /\
    final_text_parts t
    = [parse_error_text "get_weather" expecting_value;
       "[Called tool 'get_weather' with args {'city': 'Paris'}]";
       "Sunny, 18C"; "It is sunny in Paris."] /\
    tool_entries (messages t) = [("call_1", "Sunny, 18C")] /\
    host_invocations (trace w') = [("get_weather", paris_args)].
Proof.
  do 2 eexists. split; [vm_compute; reflexivity|].
  repeat split; reflexivity.
Qed.

Example scenario_host_failure :
  exists t w',
    scripted_turn "Weather?" failing_script = (inr t, w') /\
    tool_entries (messages t)
    = [("call_1", "[Tool execution error: connection lost]")] /\
    length (completion_requests (trace w')) = 2.
Proof.
  do 2 eexists. split; [vm_compute; reflexivity|].
  repeat split; reflexivity.
Qed.

Example extract_text_keeps_item_order :
  extract_text
    {| result_content :=
         Some (CList [{| item_text := Some "first"; item_str := "TextContent" |};
                      {| item_text := None; item_str := "ImageContent" |};
                      {| item_text := Some "third"; item_str := "TextContent" |}]);
       result_str := "CallToolResult" |}
  = "first" ++ nl ++ "ImageContent" ++ nl ++ "third".
Proof. reflexivity. Qed.

(** C1, evaluated on the code: a batch of one call whose arguments are
    [not-json].  The assistant entry records the call, and the history sent
    with the second completion holds no tool entry answering it: the number
    of tool entries (0) differs from the number of calls (1). *)
Theorem unparsed_call_gets_no_tool_entry :
  exists t w',
    scripted_turn "What's the weather in Paris?" broken_script = (inr t, w') /\
    messages t
    = [UserMsg "What's the weather in Paris?";
       AssistantMsg None [to_entry broken_call]] /\
    tool_entries (messages t) = [] /\
    completion_requests (trace w')
    = [first_request [UserMsg "What's the weather in Paris?"]
                     [to_tool_spec get_weather];
       second_request (messages t)].
Proof.
  do 2 eexists. split; [vm_compute; reflexivity|].
  repeat split; reflexivity.
Qed.

(** ** Output lines *)

(** C2 fails on the code: for a call whose arguments are [not-json] the
    output buffer holds the parse error line only, and no trace line for
    the tool, whatever the arguments a trace line would show. *)
Lemma unparsed_call_has_no_trace_line :
  exists t w',
    dispatch (RT := example_runtime) (C := scripted)
             [broken_call] empty_turn (fresh_world []) = (inr t, w') /\
    final_text_parts t
    = [parse_error_text "get_weather" expecting_value] /\
    ~ (exists args,
          In (trace_line (RT := example_runtime) "get_weather" args)
             (final_text_parts t)).
Proof.
  do 2 eexists. split; [reflexivity|]. split; [reflexivity|].
  intros [args [Hin|[]]]. discriminate Hin.
Qed.

(** C2, amended: when [json.loads] raises nothing but [JSONDecodeError] on
    the arguments of the batch, the output buffer grows by the lines of
    [output_lines], in the order of the batch: for a call whose arguments
    parse, the trace line naming the tool and the parsed arguments,
    immediately followed by the result text, which is the error text when
    the invocation failed; for a call on whose arguments [json.loads]
    raised [JSONDecodeError], the parse error line alone. *)
Theorem dispatch_output_lines {RT : PyRuntime} {W : Type}
        {C : Collaborators W} (tcs : list ToolCall) (t : Turn) (w : World W) :
  uncaught tcs = None ->
  exists rs t' w',
    dispatch tcs t w = (inr t', w') /\
    length rs = length (parsed_calls tcs) /\
    trace w' = (trace w ++ call_events (parsed_calls tcs) rs)%list /\
    final_text_parts t' = (final_text_parts t ++ output_lines tcs rs)%list.
Proof.
  intros Hu.
  destruct (dispatch_spec tcs t w) as (rs & w' & Hlen & Htr & Hrun).
  rewrite Hu in Hrun.
  exists rs. eexists. exists w'. repeat split; eauto.
Qed.

Lemma dispatch_output_lines_witness :
  exists rs t' w',
    dispatch (RT := example_runtime) (C := scripted)
             [broken_call; weather_call] empty_turn
             (fresh_world [RCall (inl "busy")])
    = (inr t', w') /\
    length rs = 1 /\
    trace w' = ([] ++ call_events [(weather_call, paris_args)] rs)%list /\
    final_text_parts t'
    = ([] ++ output_lines (RT := example_runtime)
               [broken_call; weather_call] rs)%list.
Proof.
  apply (@dispatch_output_lines example_runtime (list Response) scripted
           [broken_call; weather_call] empty_turn
           (fresh_world [RCall (inl "busy")])).
  reflexivity.
Defined.

(** ** Failures of the tool host *)




(** ** Arguments that do not parse *)

(** C4, evaluated on the code: a batch whose first call has the arguments
    ['[' * 3000], which are not valid JSON, and whose second call is well
    formed.  [json.loads] raises [RecursionError], which line 108 does not
    catch: the turn raises it; no parse error text is produced, the second
    call is never run, and no second completion is requested. *)
Theorem uncaught_parse_error_ends_the_turn :
  exists w',
    scripted_query "Weather in Paris?" deep_then_weather_script
    = (inl recursion_error, w') /\
    host_invocations (trace w') = [] /\
    completion_requests (trace w')
    = [first_request [UserMsg "Weather in Paris?"]
                     [to_tool_spec get_weather]].
Proof.
  eexists. split; [vm_compute; reflexivity|]. split; reflexivity.
Qed.

(** What the loop does on a [JSONDecodeError].  The call never reaches the
    tool host (neither the collaborators nor the trace change while it is
    handled); its text in the output starts with [[Error parsing arguments
    for <tool>:]; and, when [json.loads] raises nothing else on the other
    calls, the rest of the batch runs as if the call were not there: the
    host is invoked for the other calls, and their results are recorded in
    the history and in the output on both sides of that text. *)
Lemma decode_error_is_skipped {RT : PyRuntime} {W : Type}
      {C : Collaborators W} pre tc post t (w : World W) e :
  json_loads (tc_arguments tc) = DecodeError e ->
  uncaught (pre ++ post) = None ->
  (forall t0 (w0 : World W), snd (dispatch_one tc t0 w0) = w0) /\
  String.prefix ("[Error parsing arguments for " ++ tc_name tc ++ ":")
                (parse_error_text (tc_name tc) e) = true /\
  exists rs t' w',
    dispatch (pre ++ tc :: post) t w = (inr t', w') /\
    length rs = length (parsed_calls (pre ++ post)) /\
    trace w' = (trace w ++ call_events (parsed_calls (pre ++ post)) rs)%list /\
    messages t'
    = (messages t ++ tool_messages (parsed_calls (pre ++ post)) rs)%list /\
    final_text_parts t'
    = (final_text_parts t
         ++ output_lines pre (firstn (length (parsed_calls pre)) rs)
         ++ parse_error_text (tc_name tc) e
         :: output_lines post (skipn (length (parsed_calls pre)) rs))%list.
Proof.
  intros Hp Hu. split; [|split].
  - intros t0 w0. now rewrite (dispatch_one_parse_error tc t0 w0 e Hp).
  - apply parse_error_text_prefix.
  - rewrite uncaught_app in Hu.
    destruct (uncaught pre) eqn:Hpre; [discriminate Hu|].
    destruct (dispatch_spec (pre ++ tc :: post) t w)
      as (rs & w' & Hlen & Htr & Hrun).
    assert (Hwhole : uncaught (pre ++ tc :: post) = None).
    { rewrite uncaught_app, Hpre. simpl. now rewrite Hp. }
    assert (Hparsed : parsed_calls (pre ++ tc :: post)
                      = parsed_calls (pre ++ post)).
    { rewrite !parsed_calls_app by assumption. simpl. now rewrite Hp. }
    rewrite Hwhole in Hrun. rewrite Hparsed in *.
    exists rs. eexists. exists w'. split; [exact Hrun|].
    repeat split; auto. cbn [final_text_parts]. f_equal.
    rewrite <- (firstn_skipn (length (parsed_calls pre)) rs) at 1.
    rewrite output_lines_app.
    + simpl. now rewrite Hp.
    + exact Hpre.
    + rewrite length_firstn, Hlen, parsed_calls_app, length_app by assumption.
      lia.
Qed.

(** ** Replies without tool calls *)

(** C5: when the first reply carries no tool call, the answer is the
    reply's text, verbatim (the empty text when the reply has none), and
    the turn issues the first completion request and no other. *)
Theorem direct_answer_is_verbatim {RT : PyRuntime} {W : Type}
        {C : Collaborators W} q (w : World W) tools e1 m e2 :
  session_list_tools (ext w) = (inr tools, e1) ->
  chat_completions_create
    (first_request [UserMsg q] (map to_tool_spec tools)) e1 = (inr m, e2) ->
  truthy_list (msg_tool_calls m) = false ->
  fst (process_query q w) = inr (content_text (msg_content m)) /\
  completion_requests (trace (snd (process_query q w)))
  = (completion_requests (trace w)
       ++ [first_request [UserMsg q] (map to_tool_spec tools)])%list.
Proof.
  intros Hl Hc Hf. rewrite process_query_run_turn.
  rewrite (run_turn_direct q w tools e1 m e2 Hl Hc Hf). cbn [fst snd trace].
  split.
  - unfold final_answer. cbn [final_text_parts].
    now rewrite append_if_content_text.
  - rewrite completion_requests_app. reflexivity.
Qed.

Lemma direct_answer_is_verbatim_witness :
  fst (scripted_query "Hello" hello_script) = inr "Hello! How can I help?" /\
  completion_requests (trace (snd (scripted_query "Hello" hello_script)))
  = [first_request [UserMsg "Hello"] [to_tool_spec get_weather]].
Proof.
  apply (@direct_answer_is_verbatim example_runtime (list Response) scripted
           "Hello" (fresh_world hello_script) [get_weather]
           (tl hello_script) hello_reply []); reflexivity.
Defined.

(** C8: a first reply with empty content and no tool call yields the empty
    answer, not an error; and whenever the first reply carries no tool
    call, the only completion request of the turn is the first one, and
    the tool host is not invoked. *)
Theorem empty_reply_gives_empty_answer {RT : PyRuntime} {W : Type}
        {C : Collaborators W} q (w : World W) tools e1 m e2 :
  session_list_tools (ext w) = (inr tools, e1) ->
  chat_completions_create
    (first_request [UserMsg q] (map to_tool_spec tools)) e1 = (inr m, e2) ->
  truthy_list (msg_tool_calls m) = false ->
  (truthy_str (msg_content m) = false -> fst (process_query q w) = inr "") /\
  exists evs,
    trace (snd (process_query q w)) = (trace w ++ evs)%list /\
    completion_requests evs
    = [first_request [UserMsg q] (map to_tool_spec tools)] /\
    host_invocations evs = [].
Proof.
  intros Hl Hc Hf. rewrite process_query_run_turn.
  rewrite (run_turn_direct q w tools e1 m e2 Hl Hc Hf). cbn [fst snd trace].
  split.
  - intros Hempty. unfold final_answer. cbn [final_text_parts].
    now rewrite append_if_content_falsy.
  - eexists. repeat split.
Qed.

Lemma empty_reply_gives_empty_answer_witness :
  fst (scripted_query "Hello" empty_script) = inr "" /\
  exists evs,
    trace (snd (scripted_query "Hello" empty_script)) = ([] ++ evs)%list /\
    completion_requests evs
    = [first_request [UserMsg "Hello"] [to_tool_spec get_weather]] /\
    host_invocations evs = [].
Proof.
  destruct (@empty_reply_gives_empty_answer example_runtime (list Response)
              scripted "Hello" (fresh_world empty_script) [get_weather]
              (tl empty_script) empty_reply [] eq_refl eq_refl eq_refl)
    as [Hanswer Hevs].
  split; [exact (Hanswer eq_refl) | exact Hevs].
Defined.

(** ** Normalization of tool results *)

(** C6: when the arguments of a call parse and the tool host answers with
    [response], the result text recorded in the history and in the output
    is the normalization of [response] as the specification words it. *)
Theorem result_text_is_normalized {RT : PyRuntime} {W : Type}
        {C : Collaborators W} tc t (w : World W) args response e' :
  json_loads (tc_arguments tc) = Parsed args ->
  session_call_tool (tc_name tc) args (ext w) = (inr response, e') ->
  dispatch_one tc t w
  = (inr {| messages :=
              (messages t ++ [ToolMsg (tc_id tc) (normalize_spec response)])%list;
            final_text_parts :=
              (final_text_parts t
                 ++ [trace_line (tc_name tc) args;
                     normalize_spec response])%list |},
     {| ext := e';
        trace :=
          (trace w ++ [EvCallTool (tc_name tc) args (inr response)])%list |}).
Proof.
  intros Hp Hc.
  rewrite (dispatch_one_parsed tc t w args (inr response) e' Hp Hc).
  cbn [result_text]. now rewrite extract_text_spec.
Qed.

Lemma result_text_is_normalized_witness :
  dispatch_one (RT := example_runtime) (C := scripted) weather_call empty_turn
               (fresh_world [RCall (inr sunny)])
  = (inr {| messages := [ToolMsg "call_1" "Sunny, 18C"];
            final_text_parts :=
              ["[Called tool 'get_weather' with args {'city': 'Paris'}]";
               "Sunny, 18C"] |},
     {| ext := [];
        trace := [EvCallTool "get_weather" paris_args (inr sunny)] |}).
Proof.
  apply (@result_text_is_normalized example_runtime (list Response) scripted
           weather_call empty_turn (fresh_world [RCall (inr sunny)])
           paris_args sunny []); reflexivity.
Defined.

(** ** Order and freshness of the history *)

Lemma in_tool_messages {RT : PyRuntime} tcs rs msg :
  In msg (tool_messages (parsed_calls tcs) rs) ->
  exists tc args r,
    msg = ToolMsg (tc_id tc) (result_text r) /\
    In tc tcs /\
    In (EvCallTool (tc_name tc) args r) (call_events (parsed_calls tcs) rs).
Proof.
  unfold tool_messages, call_events. intros Hin.
  apply in_map_iff in Hin. destruct Hin as ([[tc args] r] & <- & Hin).
  exists tc, args, r. split; [reflexivity|]. split.
  - apply in_combine_l in Hin. clear -Hin.
    induction tcs as [|tc0 tcs IH]; simpl in Hin; [contradiction|].
    destruct (json_loads (tc_arguments tc0)).
    + destruct Hin as [[= -> _]|Hin]; [now left | right; auto].
    + right. auto.
    + contradiction.
  - apply in_map_iff. exists (tc, args, r). auto.
Qed.

(** C7: the history is only ever appended to.  Inside the loop, whenever
    a batch is completed, the loop had completed every leading part of it,
    the history after such a part is the history before it followed by new
    entries, and the history after the whole batch extends that one in the
    same way.  Over a turn, the histories passed to the model backend
    are, in the order of the requests, the user entry alone, and then, if a
    second request is made, that same history followed by the assistant
    entry and the tool entries in the order of the host invocations. *)
Theorem history_is_append_only {RT : PyRuntime} {W : Type}
        {C : Collaborators W} :
  (forall pre post t (w : World W) t2 w2,
      dispatch (pre ++ post) t w = (inr t2, w2) ->
      exists t1 w1 added1 added2,
        dispatch pre t w = (inr t1, w1) /\
        messages t1 = (messages t ++ added1)%list /\
        messages t2 = (messages t1 ++ added2)%list) /\
  (forall q (w : World W),
      exists evs,
        trace (snd (run_turn q w)) = (trace w ++ evs)%list /\
        grows (map req_messages (completion_requests evs)) /\
        (map req_messages (completion_requests evs) = [] \/
         map req_messages (completion_requests evs) = [[UserMsg q]] \/
         exists tools m tcs rs r2 hist,
           msg_tool_calls m = Some tcs /\
           length rs = length (parsed_calls tcs) /\
           evs = ([EvListTools (inr tools);
                   EvCreate (first_request [UserMsg q]
                               (map to_tool_spec tools)) (inr m)]
                    ++ call_events (parsed_calls tcs) rs
                    ++ [EvCreate (second_request hist) r2])%list /\
           hist = ([UserMsg q]
                     ++ [AssistantMsg (msg_content m) (map to_entry tcs)]
                     ++ tool_messages (parsed_calls tcs) rs)%list /\
           map req_messages (completion_requests evs) = [[UserMsg q]; hist])).
Proof.
  split.
  - intros pre post t w t2 w2 Hwhole.
    assert (Hu : uncaught (pre ++ post) = None)
      by (apply (dispatch_returns_iff _ t w); eauto).
    rewrite uncaught_app in Hu.
    destruct (uncaught pre) eqn:Hpre; [discriminate Hu|].
    destruct (dispatch_spec pre t w) as (rs1 & w1 & _ & _ & Hrun1).
    rewrite Hpre in Hrun1.
    match type of Hrun1 with _ = (inr ?x, _) => set (t1 := x) in * end.
    destruct (dispatch_spec post t1 w1) as (rs2 & w2' & _ & _ & Hrun2).
    rewrite Hu in Hrun2.
    rewrite (dispatch_app pre post t w t1 w1 Hrun1), Hrun2 in Hwhole.
    injection Hwhole as <- _.
    exists t1, w1. do 2 eexists. split; [exact Hrun1|].
    split; reflexivity.
  - intros q w. destruct (run_turn_sound q w) as (evs & Htr & Hs).
    exists evs. split; [exact Htr|].
    destruct Hs as [e|tools e|tools m Hf
                   |tools m tcs rs r2 hist Hc Hne Hu Hlen Hh
                   |tools m tcs rs e Hc Hu Hlen].
    + simpl. auto.
    + simpl. auto.
    + simpl. auto.
    + assert (Hreqs : map req_messages
                        (completion_requests
                           ([EvListTools (inr tools);
                             EvCreate (first_request [UserMsg q]
                                         (map to_tool_spec tools)) (inr m)]
                              ++ call_events (parsed_calls tcs) rs
                              ++ [EvCreate (second_request hist) r2]))
                      = [[UserMsg q]; hist]).
      { rewrite !completion_requests_app, call_events_requests. reflexivity. }
      rewrite Hreqs. split.
      * simpl. split; [|exact I]. subst hist. eexists. reflexivity.
      * right. right. exists tools, m, tcs, rs, r2, hist.
        repeat split; auto.
    + rewrite completion_requests_app, call_events_requests. simpl. auto.
Qed.

Lemma history_is_append_only_witness :
  exists t1 w1 added1 added2,
    dispatch (RT := example_runtime) (C := scripted)
             [weather_call] empty_turn
             (fresh_world [RCall (inr sunny); RCall (inl "busy")])
    = (inr t1, w1) /\
    messages t1 = ([] ++ added1)%list /\
    [ToolMsg "call_1" "Sunny, 18C";
     ToolMsg "call_1" "[Tool execution error: busy]"]
    = (messages t1 ++ added2)%list.
Proof.
  apply (proj1 (@history_is_append_only example_runtime (list Response)
                  scripted)
               [weather_call] [broken_call; weather_call] empty_turn
               (fresh_world [RCall (inr sunny); RCall (inl "busy")])
               {| messages := [ToolMsg "call_1" "Sunny, 18C";
                               ToolMsg "call_1" "[Tool execution error: busy]"];
                  final_text_parts :=
                    ["[Called tool 'get_weather' with args {'city': 'Paris'}]";
                     "Sunny, 18C";
                     parse_error_text "get_weather" expecting_value;
                     "[Called tool 'get_weather' with args {'city': 'Paris'}]";
                     "[Tool execution error: busy]"] |}
               {| ext := [];
                  trace := [EvCallTool "get_weather" paris_args (inr sunny);
                            EvCallTool "get_weather" paris_args
                                       (inl "busy")] |}).
  vm_compute. reflexivity.
Defined.

(** C9: whatever happened before the turn, every history passed to the
    model backend during the turn on [q] starts with the user entry of [q],
    holds no other user entry, and holds only entries made from replies and
    tool results received during this turn; the first request of the turn
    carries the user entry alone. *)
Theorem turn_history_is_fresh {RT : PyRuntime} {W : Type}
        {C : Collaborators W} q (w : World W) :
  exists evs,
    trace (snd (process_query q w)) = (trace w ++ evs)%list /\
    Forall (fun req => fresh_history q evs (req_messages req))
           (completion_requests evs) /\
    match completion_requests evs with
    | first :: _ => req_messages first = [UserMsg q]
    | [] => True
    end.
Proof.
  rewrite process_query_run_turn. cbn [snd].
  destruct (run_turn_sound q w) as (evs & Htr & Hs).
  exists evs. split; [exact Htr|].
  assert (Huser : forall evs0, fresh_history q evs0 [UserMsg q]).
  { intros evs0. exists []. split; [reflexivity | constructor]. }
  destruct Hs as [e|tools e|tools m Hf
                 |tools m tcs rs r2 hist Hc Hne Hu Hlen Hh
                 |tools m tcs rs e Hc Hu Hlen].
  5:{ rewrite completion_requests_app, call_events_requests. simpl.
      split; [|reflexivity]. repeat constructor. apply Huser. }
  - simpl. auto.
  - simpl. split; [|reflexivity]. repeat constructor. apply Huser.
  - simpl. split; [|reflexivity]. repeat constructor. apply Huser.
  - rewrite !completion_requests_app, call_events_requests. simpl.
    split; [|reflexivity].
    constructor; [apply Huser|]. constructor; [|constructor].
    cbn [req_messages second_request]. subst hist.
    eexists. split; [reflexivity|].
    constructor.
    + split; [reflexivity|]. exists (first_request [UserMsg q]
                                       (map to_tool_spec tools)), m, tcs.
      repeat split; auto. right. left. reflexivity.
    + apply Forall_forall. intros msg Hin.
      destruct (in_tool_messages tcs rs msg Hin)
        as (tc & args & r & -> & Htc & Hev).
      split; [reflexivity|].
      exists (first_request [UserMsg q] (map to_tool_spec tools)), m, tcs,
        tc, args, r.
      repeat split; auto.
      * right. left. reflexivity.
      * right. right. apply in_or_app. left. exact Hev.
Qed.

(** ** Determinism *)

(** C10: two turns on the same query, run against any two pairs of
    collaborators from any two states, that receive the same responses from
    them, make the same requests, end with the same history and output
    buffer, and return the same answer (or raise the same error). *)
Theorem same_responses_same_turn {RT : PyRuntime} {W1 W2 : Type}
        {C1 : Collaborators W1} {C2 : Collaborators W2}
        q (w1 : World W1) (w2 : World W2) evs1 evs2 :
  trace (snd (run_turn q w1)) = (trace w1 ++ evs1)%list ->
  trace (snd (run_turn q w2)) = (trace w2 ++ evs2)%list ->
  map response_of evs1 = map response_of evs2 ->
  evs1 = evs2 /\
  fst (run_turn q w1) = fst (run_turn q w2) /\
  fst (process_query q w1) = fst (process_query q w2).
Proof.
  intros Ht1 Ht2 Hresp.
  destruct (run_turn_sound q w1) as (evs1' & Htr1 & Hs1).
  destruct (run_turn_sound q w2) as (evs2' & Htr2 & Hs2).
  rewrite Ht1 in Htr1. apply app_inv_head in Htr1. subst evs1'.
  rewrite Ht2 in Htr2. apply app_inv_head in Htr2. subst evs2'.
  destruct (turn_shape_deterministic q evs1 evs2 _ _ Hs1 Hs2 Hresp)
    as [Hevs Hres].
  repeat split; auto.
  rewrite !process_query_run_turn. cbn [fst]. now rewrite Hres.
Qed.

Lemma same_responses_same_turn_witness :
  fst (run_turn (RT := example_runtime) (C := scripted) "Weather in Paris?"
                (fresh_world weather_script))
  = fst (run_turn (RT := example_runtime) (C := canned) "Weather in Paris?"
                  {| ext := tt; trace := [EvListTools (inl "earlier turn")] |}).
Proof.
  refine (proj1 (proj2
    (@same_responses_same_turn example_runtime (list Response) unit
       scripted canned "Weather in Paris?" (fresh_world weather_script)
       {| ext := tt; trace := [EvListTools (inl "earlier turn")] |}
       _ _ eq_refl eq_refl eq_refl))).
Defined.

(** * The session: connection, loop and tear-down *)

(** ** String methods *)

Lemma string_length_app (a b : string) :
  String.length (a ++ b) = String.length a + String.length b.
Proof. induction a as [|c a IH]; simpl; [reflexivity | now rewrite IH]. Qed.

Lemma string_app_nil_r (a : string) : a ++ "" = a.
Proof. induction a as [|c a IH]; simpl; [reflexivity | now rewrite IH]. Qed.

(** Two ways of cutting the same text into a head and a tail of a given
    length give the same tail. *)
Lemma string_app_same_tail (p q a b : string) :
  p ++ a = q ++ b -> String.length a = String.length b -> a = b.
Proof.
  revert q. induction p as [|c p IH]; intros [|d q] Heq Hlen; simpl in Heq.
  - exact Heq.
  - exfalso. rewrite Heq in Hlen. simpl in Hlen.
    rewrite string_length_app in Hlen. lia.
  - exfalso. rewrite <- Heq in Hlen. simpl in Hlen.
    rewrite string_length_app in Hlen. lia.
  - injection Heq as _ Heq. exact (IH q Heq Hlen).
Qed.

Lemma endswith_spec (s suffix : string) :
  endswith s suffix = true <-> exists stem, s = stem ++ suffix.
Proof.
  split.
  - induction s as [|c s IH]; cbn [endswith].
    + destruct (String.eqb_spec "" suffix) as [<-|Hne].
      * intros _. now exists "".
      * intros Hend. discriminate Hend.
    + destruct (String.eqb_spec (String c s) suffix) as [<-|Hne].
      * intros _. now exists "".
      * intros Hend. destruct (IH Hend) as [stem ->].
        now exists (String c stem).
  - intros [stem ->]. induction stem as [|c stem IH].
    + change ("" ++ suffix) with suffix.
      destruct suffix; cbn [endswith]; now rewrite String.eqb_refl.
    + change (String c stem ++ suffix) with (String c (stem ++ suffix)).
      cbn [endswith]. rewrite IH.
      now destruct (String.eqb (String c (stem ++ suffix)) suffix).
Qed.

Lemma endswith_other_extension (stem a b : string) :
  String.length a = String.length b -> a <> b ->
  endswith (stem ++ a) b = false.
Proof.
  intros Hlen Hne. destruct (endswith (stem ++ a) b) eqn:Hend; [|reflexivity].
  apply endswith_spec in Hend. destruct Hend as [stem' Heq].
  now destruct (Hne (string_app_same_tail _ _ _ _ Heq Hlen)).
Qed.

Lemma lstrip_spaces (ws s : string) :
  all_space ws = true -> lstrip (ws ++ s) = lstrip s.
Proof.
  induction ws as [|c ws IH]; simpl; [reflexivity|].
  intros Hws. apply andb_prop in Hws. destruct Hws as [-> Hws]. auto.
Qed.

Lemma rstrip_spaces_only (ws : string) :
  all_space ws = true -> rstrip ws = "".
Proof.
  induction ws as [|c ws IH]; simpl; [reflexivity|].
  intros Hws. apply andb_prop in Hws. destruct Hws as [-> Hws].
  now rewrite IH.
Qed.

Lemma rstrip_spaces (s ws : string) :
  all_space ws = true -> rstrip (s ++ ws) = rstrip s.
Proof.
  intros Hws. induction s as [|c s IH]; simpl.
  - now apply rstrip_spaces_only.
  - now rewrite IH.
Qed.

Lemma lstrip_cut (s : string) :
  exists ws, s = ws ++ lstrip s /\ all_space ws = true.
Proof.
  induction s as [|c s (ws & Hs & Hws)]; simpl.
  - now exists "".
  - destruct (isspace c) eqn:Hc.
    + exists (String c ws). simpl. rewrite Hc, Hws. split; [now f_equal | auto].
    + now exists "".
Qed.

Lemma rstrip_cut (s : string) :
  exists ws, s = rstrip s ++ ws /\ all_space ws = true.
Proof.
  induction s as [|c s (ws & Hs & Hws)]; simpl.
  - now exists "".
  - destruct (rstrip s) as [|d kept] eqn:Hr.
    + simpl in Hs. subst s. destruct (isspace c) eqn:Hc.
      * exists (String c ws). simpl. now rewrite Hc, Hws.
      * now exists ws.
    + exists ws. split; [|exact Hws]. simpl. f_equal. exact Hs.
Qed.

Lemma strip_cut (s : string) :
  exists ws1 ws2,
    s = ws1 ++ strip s ++ ws2 /\
    all_space ws1 = true /\ all_space ws2 = true.
Proof.
  destruct (lstrip_cut s) as (ws1 & Hs & Hws1).
  destruct (rstrip_cut (lstrip s)) as (ws2 & Hl & Hws2).
  exists ws1, ws2. unfold strip. now rewrite <- Hl, <- Hs.
Qed.

Lemma lower_char_q (c : ascii) :
  lower_char c = "q"%char -> c = "q"%char \/ c = "Q"%char.
Proof.
  destruct c as [[] [] [] [] [] [] [] []]; vm_compute; intros Hc;
    try discriminate Hc; auto.
Qed.

Lemma lower_char_u (c : ascii) :
  lower_char c = "u"%char -> c = "u"%char \/ c = "U"%char.
Proof.
  destruct c as [[] [] [] [] [] [] [] []]; vm_compute; intros Hc;
    try discriminate Hc; auto.
Qed.

Lemma lower_char_i (c : ascii) :
  lower_char c = "i"%char -> c = "i"%char \/ c = "I"%char.
Proof.
  destruct c as [[] [] [] [] [] [] [] []]; vm_compute; intros Hc;
    try discriminate Hc; auto.
Qed.

Lemma lower_char_t (c : ascii) :
  lower_char c = "t"%char -> c = "t"%char \/ c = "T"%char.
Proof.
  destruct c as [[] [] [] [] [] [] [] []]; vm_compute; intros Hc;
    try discriminate Hc; auto.
Qed.

(** A text that reads [quit] once lowered is one of the sixteen spellings
    of it, and stripping leaves it as it is. *)
Lemma lower_quit_strip (q : string) :
  lower q = "quit" -> strip q = q.
Proof.
  destruct q as [|a [|b [|c [|d [|x q]]]]]; simpl; try discriminate.
  intros [= Ha Hb Hc Hd].
  destruct (lower_char_q a Ha) as [-> | ->];
    destruct (lower_char_u b Hb) as [-> | ->];
    destruct (lower_char_i c Hc) as [-> | ->];
    destruct (lower_char_t d Hd) as [-> | ->]; reflexivity.
Qed.

Lemma strip_padded (ws1 q ws2 : string) :
  all_space ws1 = true -> all_space ws2 = true -> lower q = "quit" ->
  strip (ws1 ++ q ++ ws2) = q.
Proof.
  intros H1 H2 Hq. unfold strip. rewrite lstrip_spaces by exact H1.
  pose proof (lower_quit_strip q Hq) as Hs. unfold strip in Hs.
  assert (Hl : lstrip (q ++ ws2) = q ++ ws2).
  { destruct q as [|a q]; [discriminate Hq|]. simpl in *.
    destruct (isspace a) eqn:Ha; [|reflexivity].
    exfalso. injection Hq as Ha' _.
    destruct (lower_char_q a Ha') as [-> | ->]; discriminate Ha. }
  rewrite Hl, rstrip_spaces by exact H2.
  assert (Hl' : lstrip q = q).
  { destruct q as [|a q]; [reflexivity|]. simpl in *.
    destruct (isspace a) eqn:Ha; [|reflexivity].
    exfalso. injection Hq as Ha' _.
    destruct (lower_char_q a Ha') as [-> | ->]; discriminate Ha. }
  now rewrite Hl' in Hs.
Qed.

(** ** The loop, one input at a time *)

Section LoopSteps.
Context {RT : PyRuntime} {W : Type} {C : Collaborators W}.

(** A line that is not the quit word is sent as a query, stripped; the
    loop prints the response or the error and goes on. *)
Lemma loop_step_line fuel (p : Process W) line rest :
  stdin p = Line line :: rest ->
  is_quit line = false ->
  loop (S fuel) p
  = loop fuel
      {| world := snd (process_query (strip line) (world p));
         stdin := rest;
         stdout :=
           (stdout p
              ++ [query_prompt;
                  report (fst (process_query (strip line) (world p)))])%list;
         environ := environ p;
         lifecycle := lifecycle p |}.
Proof.
  intros Hin Hq. unfold is_quit in Hq.
  cbn [loop]. unfold loop_body, pbind, input, lift, print, pret.
  rewrite Hin, Hq. cbn [world stdin stdout environ lifecycle].
  destruct (process_query (strip line) (world p)) as [[e|response] w'].
  - cbn [fst snd world stdin stdout environ lifecycle report].
    rewrite <- app_assoc. reflexivity.
  - cbn [fst snd world stdin stdout environ lifecycle report].
    rewrite <- app_assoc. reflexivity.
Qed.

(** An interrupt or a quit line ends the loop at once. *)
Lemma loop_step_stop fuel (p : Process W) stop rest :
  stdin p = stop :: rest ->
  ends_session stop = true ->
  loop (S fuel) p
  = (inr tt,
     {| world := world p;
        stdin := rest;
        stdout := (stdout p ++ [query_prompt])%list;
        environ := environ p;
        lifecycle := lifecycle p |}).
Proof.
  intros Hin Hstop. cbn [loop]. unfold loop_body, pbind, input, pret.
  rewrite Hin. destruct stop as [line|]; [|reflexivity].
  cbn [ends_session] in Hstop. unfold is_quit in Hstop. now rewrite Hstop.
Qed.

(** At the end of the file [input] raises, the handler prints the error,
    and the loop goes on with nothing changed but the output. *)
Lemma loop_step_eof fuel (p : Process W) :
  stdin p = [] ->
  loop (S fuel) p
  = loop fuel
      {| world := world p;
         stdin := [];
         stdout := (stdout p ++ [query_prompt; report (inl eof_error)])%list;
         environ := environ p;
         lifecycle := lifecycle p |}.
Proof.
  intros Hin. cbn [loop]. unfold loop_body, pbind, input, print.
  rewrite Hin. cbn [world stdin stdout environ lifecycle report].
  rewrite <- app_assoc. reflexivity.
Qed.

(** The loop over the lines before the first input that ends the session. *)
Lemma loop_runs_lines lines : forall fuel (p : Process W) stop rest,
  stdin p = (map Line lines ++ stop :: rest)%list ->
  Forall (fun line => is_quit line = false) lines ->
  ends_session stop = true ->
  loop (length lines + S fuel) p
  = (inr tt,
     {| world := fst (replay lines (world p));
        stdin := rest;
        stdout :=
          (stdout p ++ snd (replay lines (world p)) ++ [query_prompt])%list;
        environ := environ p;
        lifecycle := lifecycle p |}).
Proof.
  induction lines as [|line lines IH]; intros fuel p stop rest Hin Hlines Hstop.
  - simpl. exact (loop_step_stop fuel p stop rest Hin Hstop).
  - inversion Hlines as [|? ? Hline Hrest]; subst.
    change (length (line :: lines) + S fuel)
      with (S (length lines + S fuel)).
    rewrite (loop_step_line _ p line (map Line lines ++ stop :: rest)%list
               Hin Hline).
    match goal with |- loop _ ?p1 = _ =>
      rewrite (IH fuel p1 stop rest eq_refl Hrest Hstop) end.
    cbn [world stdin stdout environ lifecycle replay].
    destruct (process_query (strip line) (world p)) as [r w1].
    cbn [fst snd]. destruct (replay lines w1) as [w2 out]. cbn [fst snd].
    rewrite <- app_assoc. reflexivity.
Qed.

(** Each turn of [replay] fetches the catalog once. *)
Lemma replay_trace lines : forall (w : World W),
  exists evs,
    trace (fst (replay lines w)) = (trace w ++ evs)%list /\
    catalog_requests evs = length lines /\
    length (completion_requests evs) <= 2 * length lines.
Proof.
  induction lines as [|line lines IH]; intros w.
  - exists []. simpl. now rewrite app_nil_r.
  - cbn [replay]. rewrite process_query_run_turn.
    destruct (run_turn_sound (strip line) w) as (evs1 & Htr1 & Hs).
    destruct (IH (snd (run_turn (strip line) w))) as (evs2 & Htr2 & Hc2 & Hr2).
    destruct (replay lines (snd (run_turn (strip line) w))) as [w2 out].
    cbn [fst snd] in *. exists (evs1 ++ evs2)%list.
    rewrite Htr2, Htr1, <- app_assoc. split; [reflexivity|].
    assert (Hone : catalog_requests evs1 = 1
                   /\ length (completion_requests evs1) <= 2).
    { destruct Hs as [e|tools e|tools m Hf
                     |tools m tcs rs0 r2 hist Hc Hne Hu Hlen Hh
                     |tools m tcs rs0 e Hc Hu Hlen]; simpl; auto.
      - rewrite completion_requests_app, call_events_requests. simpl.
        split; [|lia]. f_equal.
        unfold call_events.
        induction (combine (parsed_calls tcs) rs0) as [|x l IHl];
          simpl; auto.
      - rewrite call_events_requests. simpl. split; [|lia]. f_equal.
        unfold call_events.
        induction (combine (parsed_calls tcs) rs0) as [|x l IHl];
          simpl; auto. }
    destruct Hone as [Hcat Hreq].
    assert (Happ : forall xs ys,
               catalog_requests (xs ++ ys)
               = catalog_requests xs + catalog_requests ys).
    { intros xs ys. induction xs as [|[r|req r|n a r] xs IHx]; simpl; auto. }
    rewrite Happ, completion_requests_app, length_app, Hcat, Hc2.
    simpl. split; lia.
Qed.
End LoopSteps.

(** ** Connection *)

Section Connection.
Context {RT : PyRuntime} {W : Type} {C : Collaborators W} {L : Lifecycle W}.

(** X1: a script path that ends neither in [.py] nor in [.js] makes
    [connect_to_server] raise the extension error before anything is
    touched: no server is launched, no session is opened, nothing is
    printed. *)
Theorem connect_rejects_other_extensions path (p : Process W) :
  (forall stem, path <> stem ++ ".py") ->
  (forall stem, path <> stem ++ ".js") ->
  connect_to_server path p = (inl (RExc extension_error), p).
Proof.
  intros Hpy Hjs. unfold connect_to_server.
  destruct (endswith path ".py") eqn:Epy.
  { apply endswith_spec in Epy. destruct Epy as [stem ->].
    now destruct (Hpy stem). }
  destruct (endswith path ".js") eqn:Ejs.
  { apply endswith_spec in Ejs. destruct Ejs as [stem ->].
    now destruct (Hjs stem). }
  reflexivity.
Qed.

(** What [connect_to_server] does once the extension is accepted: the
    server is launched first, with the command chosen by the extension and
    the path as its only argument; no tear-down happens; the input is not
    read. *)
Lemma connect_accepted path (p : Process W) :
  endswith path ".py" || endswith path ".js" = true ->
  exists r rest,
    lifecycle (snd (connect_to_server path p))
    = (lifecycle p
         ++ EvStdioClient
              {| sp_command :=
                   if endswith path ".py" then "python" else "node";
                 sp_args := [path];
                 sp_env := None |} r
         :: rest)%list /\
    closes rest = 0.
Proof.
  intros Hok. unfold connect_to_server. rewrite Hok. cbn [negb].
  unfold pbind, life, lift, print, list_tools.
  cbn [world stdin stdout environ lifecycle ext trace].
  destruct (enter_stdio_client _ (ext (world p))) as [[e|[]] e1];
    cbn [world stdin stdout environ lifecycle ext trace snd].
  { now exists (inl e), []. }
  destruct (enter_client_session e1) as [[e|[]] e2];
    cbn [world stdin stdout environ lifecycle ext trace snd].
  { exists (inr tt), [EvClientSession (inl e)].
    now rewrite <- app_assoc. }
  destruct (session_initialize e2) as [[e|[]] e3];
    cbn [world stdin stdout environ lifecycle ext trace snd].
  { exists (inr tt), [EvClientSession (inr tt); EvInitialize (inl e)].
    now rewrite <- !app_assoc. }
  exists (inr tt), [EvClientSession (inr tt); EvInitialize (inr tt)].
  destruct (session_list_tools e3) as [[e|tools] e4];
    cbn [world stdin stdout environ lifecycle ext trace snd];
    now rewrite <- !app_assoc.
Qed.

Lemma connect_keeps_input path (p : Process W) :
  stdin (snd (connect_to_server path p)) = stdin p /\
  environ (snd (connect_to_server path p)) = environ p.
Proof.
  unfold connect_to_server.
  destruct (negb (endswith path ".py" || endswith path ".js"));
    [split; reflexivity|].
  unfold pbind, life, lift, print, list_tools.
  cbn [world stdin stdout environ lifecycle ext trace].
  destruct (enter_stdio_client _ (ext (world p))) as [[e|[]] e1];
    cbn [world stdin stdout environ lifecycle ext trace snd]; auto.
  destruct (enter_client_session e1) as [[e|[]] e2];
    cbn [world stdin stdout environ lifecycle ext trace snd]; auto.
  destruct (session_initialize e2) as [[e|[]] e3];
    cbn [world stdin stdout environ lifecycle ext trace snd]; auto.
  destruct (session_list_tools e3) as [[e|tools] e4];
    cbn [world stdin stdout environ lifecycle ext trace snd]; auto.
Qed.

(** X2: the extension chooses the interpreter: a path ending in [.py] is
    launched with [python], a path ending in [.js] with [node], in both
    cases with the path, unchanged, as the only argument and no
    environment; the launch is the first thing the connection does. *)
Theorem extension_selects_command stem (p : Process W) :
  (exists r rest,
      lifecycle (snd (connect_to_server (stem ++ ".py") p))
      = (lifecycle p
           ++ EvStdioClient {| sp_command := "python";
                               sp_args := [(stem ++ ".py")%string];
                               sp_env := None |} r
           :: rest)%list) /\
  (exists r rest,
      lifecycle (snd (connect_to_server (stem ++ ".js") p))
      = (lifecycle p
           ++ EvStdioClient {| sp_command := "node";
                               sp_args := [(stem ++ ".js")%string];
                               sp_env := None |} r
           :: rest)%list).
Proof.
  assert (Hpy : endswith (stem ++ ".py") ".py" = true)
    by (apply endswith_spec; now exists stem).
  assert (Hjs : endswith (stem ++ ".js") ".js" = true)
    by (apply endswith_spec; now exists stem).
  assert (Hno : endswith (stem ++ ".js") ".py" = false)
    by (apply endswith_other_extension; [reflexivity | discriminate]).
  split.
  - destruct (connect_accepted (stem ++ ".py") p) as (r & rest & Hl & _).
    + now rewrite Hpy.
    + rewrite Hpy in Hl. now exists r, rest.
  - destruct (connect_accepted (stem ++ ".js") p) as (r & rest & Hl & _).
    + rewrite Hjs. apply orb_true_r.
    + rewrite Hno in Hl. now exists r, rest.
Qed.

(** X3: [connect_to_server] succeeds only when the server launch, the
    opening of the session, its initialization and the catalog request all
    succeed, each one run on the state the one before left: launch first,
    then the session, then [initialize], then [list_tools].  It then
    prints the names of the tools in catalog order, and nothing else was
    done.  When it raises, it has printed nothing. *)
Theorem connect_outcome path (p : Process W) :
  match fst (connect_to_server path p) with
  | inr _ =>
      exists params tools e1 e2 e3 e4,
        enter_stdio_client params (ext (world p)) = (inr tt, e1) /\
        enter_client_session e1 = (inr tt, e2) /\
        session_initialize e2 = (inr tt, e3) /\
        session_list_tools e3 = (inr tools, e4) /\
        snd (connect_to_server path p)
        = {| world :=
               {| ext := e4;
                  trace :=
                    (trace (world p) ++ [EvListTools (inr tools)])%list |};
             stdin := stdin p;
             stdout :=
               (stdout p ++ [(connected_line tools ++ nl)%string])%list;
             environ := environ p;
             lifecycle :=
               (lifecycle p
                  ++ [EvStdioClient params (inr tt); EvClientSession (inr tt);
                      EvInitialize (inr tt)])%list |}
  | inl _ => stdout (snd (connect_to_server path p)) = stdout p
  end.
Proof.
  unfold connect_to_server.
  destruct (negb (endswith path ".py" || endswith path ".js"));
    [reflexivity|].
  unfold pbind, life, lift, print, list_tools.
  cbn [world stdin stdout environ lifecycle ext trace].
  destruct (enter_stdio_client _ (ext (world p))) as [[e|[]] e1] eqn:H1;
    cbn [world stdin stdout environ lifecycle ext trace fst snd]; auto.
  destruct (enter_client_session e1) as [[e|[]] e2] eqn:H2;
    cbn [world stdin stdout environ lifecycle ext trace fst snd]; auto.
  destruct (session_initialize e2) as [[e|[]] e3] eqn:H3;
    cbn [world stdin stdout environ lifecycle ext trace fst snd]; auto.
  destruct (session_list_tools e3) as [[e|tools] e4] eqn:H4;
    cbn [world stdin stdout environ lifecycle ext trace fst snd]; auto.
  eexists. exists tools, e1, e2, e3, e4.
  split; [exact H1|]. split; [exact H2|]. split; [exact H3|].
  split; [exact H4|]. now rewrite <- !app_assoc.
Qed.
End Connection.

Lemma connect_rejects_other_extensions_witness :
  connect_to_server (RT := example_runtime) (C := scripted) (L := easy_life)
                    "weather.sh" (fresh_process [] [])
  = (inl (RExc extension_error), fresh_process [] []).
Proof.
  apply (@connect_rejects_other_extensions example_runtime (list Response)
           scripted easy_life "weather.sh" (fresh_process [] [])).
  - intros stem Heq.
    assert (Hend : endswith "weather.sh" ".py" = true)
      by (apply endswith_spec; now exists stem).
    discriminate Hend.
  - intros stem Heq.
    assert (Hend : endswith "weather.sh" ".js" = true)
      by (apply endswith_spec; now exists stem).
    discriminate Hend.
Defined.

(** ** The chat loop *)

(** X4: the lines that end the session are exactly the word [quit], in any
    mix of upper and lower case, with any whitespace before and after. *)
Theorem quit_lines (line : string) :
  is_quit line = true <->
  exists ws1 q ws2,
    line = ws1 ++ q ++ ws2 /\
    all_space ws1 = true /\ all_space ws2 = true /\
    lower q = "quit".
Proof.
  unfold is_quit. rewrite String.eqb_eq. split.
  - intros Hq. destruct (strip_cut line) as (ws1 & ws2 & Hl & H1 & H2).
    now exists ws1, (strip line), ws2.
  - intros (ws1 & q & ws2 & -> & H1 & H2 & Hq).
    now rewrite strip_padded.
Qed.

Section ChatLoop.
Context {RT : PyRuntime} {W : Type} {C : Collaborators W}.

(** X5: [chat_loop] prints its two opening lines, then handles every line
    before the first quit line or interrupt, in order and once each: it
    prints the prompt, sends the stripped line as a query, and prints the
    response, or the error when the turn raised, after which it goes on
    with the next line.  It returns at the quit line or interrupt, leaving
    the rest of the input unread. *)
Theorem chat_loop_runs_every_line fuel lines stop rest (p : Process W) :
  stdin p = (map Line lines ++ stop :: rest)%list ->
  Forall (fun line => is_quit line = false) lines ->
  ends_session stop = true ->
  length lines < fuel ->
  chat_loop fuel p
  = (inr tt,
     {| world := fst (replay lines (world p));
        stdin := rest;
        stdout :=
          (stdout p
             ++ [(started_banner ++ nl)%string; (quit_hint ++ nl)%string]
             ++ snd (replay lines (world p))
             ++ [query_prompt])%list;
        environ := environ p;
        lifecycle := lifecycle p |}).
Proof.
  intros Hin Hlines Hstop Hfuel.
  replace fuel with (length lines + S (fuel - S (length lines))) by lia.
  unfold chat_loop, pbind, print.
  match goal with |- context [loop _ ?p1] =>
    rewrite (loop_runs_lines lines _ p1 stop rest Hin Hlines Hstop) end.
  cbn [world stdin stdout environ lifecycle].
  now rewrite <- !app_assoc.
Qed.

(** X6: over a session, the tool catalog is fetched once for every query,
    whether the turn succeeds or not, and at most two completions are
    requested per query. *)
Theorem chat_loop_fetches_catalog_per_query fuel lines stop rest
        (p : Process W) :
  stdin p = (map Line lines ++ stop :: rest)%list ->
  Forall (fun line => is_quit line = false) lines ->
  ends_session stop = true ->
  length lines < fuel ->
  exists evs,
    trace (world (snd (chat_loop fuel p))) = (trace (world p) ++ evs)%list /\
    catalog_requests evs = length lines /\
    length (completion_requests evs) <= 2 * length lines.
Proof.
  intros Hin Hlines Hstop Hfuel.
  replace fuel with (length lines + S (fuel - S (length lines))) by lia.
  unfold chat_loop, pbind, print.
  match goal with |- context [loop _ ?p1] =>
    rewrite (loop_runs_lines lines _ p1 stop rest Hin Hlines Hstop) end.
  cbn [snd world]. apply replay_trace.
Qed.

Lemma loop_without_stop fuel : forall lines (p : Process W),
  stdin p = map Line lines ->
  Forall (fun line => is_quit line = false) lines ->
  fst (loop fuel p) = inl Unfinished.
Proof.
  induction fuel as [|fuel IH]; intros lines p Hin Hlines; [reflexivity|].
  destruct lines as [|line lines].
  - rewrite (loop_step_eof fuel p Hin). now apply (IH []).
  - inversion Hlines as [|? ? Hline Hrest]; subst.
    rewrite (loop_step_line fuel p line (map Line lines) Hin Hline).
    now apply (IH lines).
Qed.

(** X7: when the input ends without a quit line or an interrupt,
    [chat_loop] never returns: however many iterations are run, the loop is
    still going. *)
Theorem chat_loop_needs_a_stop fuel lines (p : Process W) :
  stdin p = map Line lines ->
  Forall (fun line => is_quit line = false) lines ->
  fst (chat_loop fuel p) = inl Unfinished.
Proof.
  intros Hin Hlines. unfold chat_loop, pbind, print.
  now apply (loop_without_stop fuel lines).
Qed.

(** X8: at the end of the input every iteration of the loop prints the
    prompt and the end-of-file error, and nothing else happens: no query is
    sent and the collaborators are not contacted. *)
Theorem loop_at_end_of_file fuel : forall (p : Process W),
  stdin p = [] ->
  world (snd (loop fuel p)) = world p /\
  stdout (snd (loop fuel p))
  = (stdout p
       ++ concat (repeat [query_prompt; report (inl eof_error)] fuel))%list.
Proof.
  induction fuel as [|fuel IH]; intros p Hin.
  - simpl. now rewrite app_nil_r.
  - rewrite (loop_step_eof fuel p Hin).
    match goal with |- context [loop fuel ?p1] =>
      destruct (IH p1 eq_refl) as [Hw Hout] end.
    rewrite Hw, Hout. cbn [world stdout repeat concat].
    now rewrite <- app_assoc.
Qed.

Lemma loop_keeps_lifecycle fuel : forall (p : Process W),
  lifecycle (snd (loop fuel p)) = lifecycle p.
Proof.
  induction fuel as [|fuel IH]; intros p; [reflexivity|].
  destruct (stdin p) as [|[line|] rest] eqn:Hin.
  - rewrite (loop_step_eof fuel p Hin). now rewrite IH.
  - destruct (is_quit line) eqn:Hq.
    + now rewrite (loop_step_stop fuel p (Line line) rest Hin Hq).
    + rewrite (loop_step_line fuel p line rest Hin Hq). now rewrite IH.
  - now rewrite (loop_step_stop fuel p Interrupt rest Hin eq_refl).
Qed.
End ChatLoop.

Lemma chat_loop_runs_every_line_witness :
  fst (chat_loop (RT := example_runtime) (C := scripted) 2
                 (fresh_process hello_script [Line " Hello "; Line "QUIT"]))
  = inr tt.
Proof.
  rewrite (@chat_loop_runs_every_line example_runtime (list Response) scripted
             2 [" Hello "] (Line "QUIT") []
             (fresh_process hello_script [Line " Hello "; Line "QUIT"])
             eq_refl).
  - reflexivity.
  - repeat constructor.
  - reflexivity.
  - simpl. lia.
Defined.

Lemma chat_loop_fetches_catalog_per_query_witness :
  exists evs,
    trace (world (snd (chat_loop (RT := example_runtime) (C := scripted) 2
                         (fresh_process hello_script
                            [Line " Hello "; Line "QUIT"]))))
    = ([] ++ evs)%list /\
    catalog_requests evs = 1 /\
    length (completion_requests evs) <= 2.
Proof.
  apply (@chat_loop_fetches_catalog_per_query example_runtime (list Response)
           scripted 2 [" Hello "] (Line "QUIT") []
           (fresh_process hello_script [Line " Hello "; Line "QUIT"])
           eq_refl).
  - repeat constructor.
  - reflexivity.
  - simpl. lia.
Defined.

Lemma chat_loop_needs_a_stop_witness :
  fst (chat_loop (RT := example_runtime) (C := scripted) 7
                 (fresh_process hello_script [Line "Hello"]))
  = inl Unfinished.
Proof.
  apply (@chat_loop_needs_a_stop example_runtime (list Response) scripted
           7 ["Hello"] (fresh_process hello_script [Line "Hello"]) eq_refl).
  repeat constructor.
Defined.

Lemma loop_at_end_of_file_witness :
  world (snd (loop (RT := example_runtime) (C := scripted) 3
                   (fresh_process hello_script [])))
  = fresh_world hello_script /\
  stdout (snd (loop (RT := example_runtime) (C := scripted) 3
                    (fresh_process hello_script [])))
  = ([] ++ concat (repeat [query_prompt; report (inl eof_error)] 3))%list.
Proof.
  apply (@loop_at_end_of_file example_runtime (list Response) scripted
           3 (fresh_process hello_script []) eq_refl).
Defined.

(** ** The entry point *)

Section Main.
Context {RT : PyRuntime} {W : Type} {C : Collaborators W} {L : Lifecycle W}.

(** X9: without a script path on the command line, [main] prints the usage
    line and exits with status 1; no client is built, nothing is launched
    and the input is not read. *)
Theorem main_without_script_path fuel argv (p : Process W) :
  length argv < 2 ->
  main fuel argv p
  = (inl (RExit 1),
     {| world := world p;
        stdin := stdin p;
        stdout := (stdout p ++ [(usage ++ nl)%string])%list;
        environ := environ p;
        lifecycle := lifecycle p |}).
Proof.
  intros Hlen. unfold main.
  destruct (Nat.ltb_spec (length argv) 2) as [_|Hge]; [reflexivity | lia].
Qed.

Lemma session_body_lifecycle fuel path (p : Process W) :
  exists evs,
    lifecycle (snd ((connect_to_server path ;;; chat_loop fuel) p))
    = (lifecycle p ++ evs)%list /\
    closes evs = 0.
Proof.
  unfold pbind.
  destruct (connect_to_server path p) as [[r|[]] p1] eqn:Hconn.
  - cbn [snd].
    destruct (endswith path ".py" || endswith path ".js") eqn:Hok.
    + destruct (connect_accepted path p Hok) as (r0 & rest & Hl & Hc).
      rewrite Hconn in Hl. cbn [snd] in Hl.
      exists (EvStdioClient
                {| sp_command :=
                     if endswith path ".py" then "python" else "node";
                   sp_args := [path];
                   sp_env := None |} r0 :: rest).
      split; [exact Hl | exact Hc].
    + unfold connect_to_server in Hconn. rewrite Hok in Hconn.
      injection Hconn as _ <-. exists []. now rewrite app_nil_r.
  - unfold chat_loop, pbind, print. rewrite loop_keeps_lifecycle.
    cbn [lifecycle].
    destruct (endswith path ".py" || endswith path ".js") eqn:Hok.
    + destruct (connect_accepted path p Hok) as (r0 & rest & Hl & Hc).
      rewrite Hconn in Hl. cbn [snd] in Hl.
      exists (EvStdioClient
                {| sp_command :=
                     if endswith path ".py" then "python" else "node";
                   sp_args := [path];
                   sp_env := None |} r0 :: rest).
      split; [exact Hl | exact Hc].
    + unfold connect_to_server in Hconn. rewrite Hok in Hconn.
      discriminate Hconn.
Qed.

(** X10: once the client is built, [main] tears the connections down on
    every way out of the session, exactly once and as the last step.  The
    tear-down is run on the state in which the connection and the chat
    loop, in this order, ended: whether the connection failed, the loop
    returned, or an error got out of it; that state is otherwise the final
    one, and main gives back what the session gave, unless the tear-down
    itself raises.  (A run cut while the loop is still going has not left
    the session.) *)
Theorem main_always_cleans_up fuel argv (p : Process W) e1 :
  2 <= length argv ->
  new_chat_client (getenv "DASHSCOPE_API_KEY" (environ p)) base_url
                  (ext (world p)) = (inr tt, e1) ->
  fst (main fuel argv p) <> inl Unfinished ->
  exists r p2 rc e3 evs,
    (connect_to_server (nth 1 argv "") ;;; chat_loop fuel)
      {| world := {| ext := e1; trace := trace (world p) |};
         stdin := stdin p;
         stdout := stdout p;
         environ := environ p;
         lifecycle :=
           (lifecycle p
              ++ [EvNewClient (getenv "DASHSCOPE_API_KEY" (environ p))
                              base_url (inr tt)])%list |}
    = (r, p2) /\
    lifecycle p2
    = (lifecycle p
         ++ EvNewClient (getenv "DASHSCOPE_API_KEY" (environ p)) base_url
                        (inr tt)
         :: evs)%list /\
    closes evs = 0 /\
    exit_stack_aclose (ext (world p2)) = (rc, e3) /\
    snd (main fuel argv p)
    = {| world := {| ext := e3; trace := trace (world p2) |};
         stdin := stdin p2;
         stdout := stdout p2;
         environ := environ p2;
         lifecycle := (lifecycle p2 ++ [EvAclose rc])%list |} /\
    fst (main fuel argv p)
    = match rc with
      | inl e => inl (RExc e)
      | inr _ => r
      end.
Proof.
  intros Hlen Hnew Hfin.
  set (p1 := {| world := {| ext := e1; trace := trace (world p) |};
                stdin := stdin p;
                stdout := stdout p;
                environ := environ p;
                lifecycle :=
                  (lifecycle p
                     ++ [EvNewClient
                           (getenv "DASHSCOPE_API_KEY" (environ p))
                           base_url (inr tt)])%list |}).
  assert (Hmain : main fuel argv p
                  = try_finally
                      (connect_to_server (nth 1 argv "") ;;; chat_loop fuel)
                      cleanup p1).
  { unfold main.
    destruct (Nat.ltb_spec (length argv) 2) as [Hlt|_]; [lia|].
    unfold pbind at 1. unfold new_client, life. now rewrite Hnew. }
  rewrite Hmain in *. clear Hmain. unfold try_finally in *.
  destruct (session_body_lifecycle fuel (nth 1 argv "") p1)
    as (evs & Hl & Hc).
  destruct ((connect_to_server (nth 1 argv "") ;;; chat_loop fuel) p1)
    as [r p2] eqn:Hbody.
  cbn [snd lifecycle p1] in Hl.
  unfold cleanup, life in *.
  destruct (exit_stack_aclose (ext (world p2))) as [rc e3] eqn:Hclose.
  exists r, p2, rc, e3, evs.
  split; [first [exact Hbody | reflexivity]|].
  split; [now rewrite Hl, <- app_assoc|].
  split; [exact Hc|]. split; [first [exact Hclose | reflexivity]|].
  destruct r as [[e| |code|]|[]]; try (now destruct Hfin);
    destruct rc as [ec|[]]; split; reflexivity.
Qed.

(** X11: given a script path with another extension, [main] builds the
    client, launches nothing, does not start the chat loop (nothing is
    printed, the input is not read), tears down, and lets the extension
    error out. *)
Theorem main_rejects_other_extensions fuel prog path more (p : Process W)
        e1 e2 :
  (forall stem, path <> stem ++ ".py") ->
  (forall stem, path <> stem ++ ".js") ->
  new_chat_client (getenv "DASHSCOPE_API_KEY" (environ p)) base_url
                  (ext (world p)) = (inr tt, e1) ->
  exit_stack_aclose e1 = (inr tt, e2) ->
  main fuel (prog :: path :: more) p
  = (inl (RExc extension_error),
     {| world := {| ext := e2; trace := trace (world p) |};
        stdin := stdin p;
        stdout := stdout p;
        environ := environ p;
        lifecycle :=
          (lifecycle p
             ++ [EvNewClient (getenv "DASHSCOPE_API_KEY" (environ p))
                             base_url (inr tt);
                 EvAclose (inr tt)])%list |}).
Proof.
  intros Hpy Hjs Hnew Hclose. unfold main. cbn [length Nat.ltb Nat.leb nth].
  unfold pbind at 1. unfold new_client, life. rewrite Hnew.
  cbn [world stdin stdout environ lifecycle ext trace].
  unfold try_finally, pbind.
  rewrite (connect_rejects_other_extensions path _ Hpy Hjs).
  unfold cleanup, life. cbn [world stdin stdout environ lifecycle ext trace].
  rewrite Hclose. now rewrite <- app_assoc.
Qed.
End Main.

Lemma main_without_script_path_witness :
  main (RT := example_runtime) (C := scripted) (L := easy_life)
       5 ["client.py"] (fresh_process [] [Line "Hello"])
  = (inl (RExit 1),
     {| world := fresh_world [];
        stdin := [Line "Hello"];
        stdout := ([] ++ [(usage ++ nl)%string])%list;
        environ := [("DASHSCOPE_API_KEY", "sk-test")];
        lifecycle := [] |}).
Proof.
  apply (@main_without_script_path example_runtime (list Response) scripted
           easy_life 5 ["client.py"] (fresh_process [] [Line "Hello"])).
  simpl. lia.
Defined.

Lemma main_always_cleans_up_witness :
  exists r p2 rc e3 evs,
    (connect_to_server (RT := example_runtime) (C := scripted)
                       (L := easy_life) "weather.py" ;;;
     chat_loop (RT := example_runtime) (C := scripted) 5)
      {| world := fresh_world (RTools (inr [get_weather]) :: hello_script);
         stdin := [Line "Hello"; Line "quit"];
         stdout := [];
         environ := [("DASHSCOPE_API_KEY", "sk-test")];
         lifecycle := ([] ++ [EvNewClient (Some "sk-test") base_url
                                          (inr tt)])%list |}
    = (r, p2) /\
    lifecycle p2
    = ([] ++ EvNewClient (Some "sk-test") base_url (inr tt) :: evs)%list /\
    closes evs = 0 /\
    exit_stack_aclose (Lifecycle := easy_life) (ext (world p2)) = (rc, e3) /\
    snd (main (RT := example_runtime) (C := scripted) (L := easy_life)
              5 ["client.py"; "weather.py"]
              (fresh_process (RTools (inr [get_weather]) :: hello_script)
                 [Line "Hello"; Line "quit"]))
    = {| world := {| ext := e3; trace := trace (world p2) |};
         stdin := stdin p2;
         stdout := stdout p2;
         environ := environ p2;
         lifecycle := (lifecycle p2 ++ [EvAclose rc])%list |} /\
    fst (main (RT := example_runtime) (C := scripted) (L := easy_life)
              5 ["client.py"; "weather.py"]
              (fresh_process (RTools (inr [get_weather]) :: hello_script)
                 [Line "Hello"; Line "quit"]))
    = match rc with
      | inl e => inl (RExc e)
      | inr _ => r
      end.
Proof.
  apply (@main_always_cleans_up example_runtime (list Response) scripted
           easy_life 5 ["client.py"; "weather.py"]
           (fresh_process (RTools (inr [get_weather]) :: hello_script)
              [Line "Hello"; Line "quit"])
           (RTools (inr [get_weather]) :: hello_script)).
  - simpl. lia.
  - reflexivity.
  - vm_compute. discriminate.
Defined.

Lemma main_rejects_other_extensions_witness :
  fst (main (RT := example_runtime) (C := scripted) (L := easy_life)
            5 ["client.py"; "weather.sh"] (fresh_process [] [Line "Hello"]))
  = inl (RExc extension_error).
Proof.
  rewrite (@main_rejects_other_extensions example_runtime (list Response)
             scripted easy_life 5 "client.py" "weather.sh" []
             (fresh_process [] [Line "Hello"]) [] []).
  - reflexivity.
  - intros stem Heq.
    assert (Hend : endswith "weather.sh" ".py" = true)
      by (apply endswith_spec; now exists stem).
    discriminate Hend.
  - intros stem Heq.
    assert (Hend : endswith "weather.sh" ".js" = true)
      by (apply endswith_spec; now exists stem).
    discriminate Hend.
  - reflexivity.
  - reflexivity.
Defined.

(** ** More on a turn *)

Lemma call_events_no_catalog {RT : PyRuntime} cs rs :
  catalog_requests (call_events cs rs) = 0.
Proof.
  unfold call_events.
  induction (combine cs rs) as [|x l IH]; simpl; auto.
Qed.

Lemma catalog_requests_app (xs ys : list Event) :
  catalog_requests (xs ++ ys) = catalog_requests xs + catalog_requests ys.
Proof.
  induction xs as [|[r|req r|name args r] xs IH]; simpl; auto.
Qed.

Lemma parsed_calls_all {RT : PyRuntime} (tcs : list ToolCall) :
  Forall (fun tc => exists args, json_loads (tc_arguments tc) = Parsed args)
         tcs ->
  map (fun c => tc_id (fst c)) (parsed_calls tcs) = map tc_id tcs /\
  length (parsed_calls tcs) = length tcs /\
  uncaught tcs = None.
Proof.
  induction 1 as [|tc tcs [args Hp] _ (IHid & IHlen & IHu)]; simpl; auto.
  rewrite Hp. simpl. now rewrite IHid, IHlen.
Qed.

Section TurnExtras.
Context {RT : PyRuntime} {W : Type} {C : Collaborators W}.

(** X12: every turn starts by fetching the tool catalog, and fetches it
    only once; when that request raises, the turn raises the same error
    and the model backend is not contacted at all. *)
Theorem turn_fetches_catalog_first q (w : World W) :
  exists r rest,
    trace (snd (process_query q w)) = (trace w ++ EvListTools r :: rest)%list /\
    catalog_requests rest = 0 /\
    (forall e, r = inl e -> rest = [] /\ fst (process_query q w) = inl e).
Proof.
  rewrite process_query_run_turn. cbn [fst snd].
  destruct (run_turn_sound q w) as (evs & Htr & Hs). rewrite Htr.
  destruct Hs as [e|tools e|tools m Hf
                 |tools m tcs rs r2 hist Hc Hne Hu Hlen Hh
                 |tools m tcs rs e Hc Hu Hlen].
  5:{ eexists _, _. split; [reflexivity|]. split.
      - simpl. apply call_events_no_catalog.
      - intros e0 He0. discriminate He0. }
  - exists (inl e), []. split; [reflexivity|]. split; [reflexivity|].
    intros e0 He0. injection He0 as <-. split; reflexivity.
  - eexists _, _. split; [reflexivity|]. split; [reflexivity|].
    intros e0 He0. discriminate He0.
  - eexists _, _. split; [reflexivity|]. split; [reflexivity|].
    intros e0 He0. discriminate He0.
  - eexists _, _. split; [reflexivity|]. split.
    + simpl. now rewrite catalog_requests_app, call_events_no_catalog.
    + intros e0 He0. discriminate He0.
Qed.

(** X13: a turn sends at most two completion requests, all for the model
    [qwen-max] with at most 1000 tokens.  The first offers the tools of the
    catalog fetched in this turn, converted one by one in catalog order,
    with the choice left to the model; any later request offers no tool. *)
Theorem completion_requests_of_a_turn q (w : World W) :
  exists evs,
    trace (snd (process_query q w)) = (trace w ++ evs)%list /\
    length (completion_requests evs) <= 2 /\
    Forall (fun req => req_model req = "qwen-max" /\ req_max_tokens req = 1000)
           (completion_requests evs) /\
    match completion_requests evs with
    | [] => True
    | first :: others =>
        (exists tools,
            In (EvListTools (inr tools)) evs /\
            req_tools first = Some (map to_tool_spec tools)) /\
        req_tool_choice first = Some "auto" /\
        Forall (fun req => req_tools req = None /\ req_tool_choice req = None)
               others
    end.
Proof.
  rewrite process_query_run_turn. cbn [snd].
  destruct (run_turn_sound q w) as (evs & Htr & Hs).
  exists evs. split; [exact Htr|].
  destruct Hs as [e|tools e|tools m Hf
                 |tools m tcs rs r2 hist Hc Hne Hu Hlen Hh
                 |tools m tcs rs e Hc Hu Hlen].
  - simpl. auto.
  - simpl. repeat split; auto.
    exists tools. split; [now left | reflexivity].
  - simpl. repeat split; auto.
    exists tools. split; [now left | reflexivity].
  - rewrite !completion_requests_app, call_events_requests. simpl.
    repeat split; auto.
    exists tools. split; [now left | reflexivity].
  - rewrite completion_requests_app, call_events_requests. simpl.
    repeat split; auto.
    exists tools. split; [now left | reflexivity].
Qed.

(** X14: a turn raises only what the catalog request raised, what a
    completion request raised, or what [json.loads] raised, other than
    [JSONDecodeError], on the arguments of a call of the batch; the
    failing request is the last thing the turn did, and after an exception
    of [json.loads] no completion is requested any more.  An error of the
    tool host never gets out of a turn: whatever the host answers, the
    turn raises nothing or one of these. *)
Theorem turn_raises_at_its_last_request q (w : World W) e :
  fst (process_query q w) = inl e ->
  exists evs,
    trace (snd (process_query q w)) = (trace w ++ evs)%list /\
    (evs = [EvListTools (inl e)] \/
     (exists before req, evs = (before ++ [EvCreate req (inl e)])%list) \/
     (exists tools m tcs rs,
         msg_tool_calls m = Some tcs /\
         uncaught tcs = Some e /\
         length rs = length (parsed_calls tcs) /\
         evs = ([EvListTools (inr tools);
                 EvCreate (first_request [UserMsg q] (map to_tool_spec tools))
                          (inr m)]
                  ++ call_events (parsed_calls tcs) rs)%list)).
Proof.
  rewrite process_query_run_turn. cbn [fst snd].
  destruct (run_turn_sound q w) as (evs & Htr & Hs).
  intros Hraise. exists evs. split; [exact Htr|].
  destruct Hs as [e0|tools e0|tools m Hf
                 |tools m tcs rs r2 hist Hc Hne Hu Hlen Hh
                 |tools m tcs rs e0 Hc Hu Hlen].
  - injection Hraise as <-. now left.
  - injection Hraise as <-. right. left.
    now exists [EvListTools (inr tools)], (first_request [UserMsg q]
                                             (map to_tool_spec tools)).
  - discriminate Hraise.
  - destruct r2 as [e2|fm]; [|discriminate Hraise].
    injection Hraise as <-. right. left.
    eexists _, (second_request hist). rewrite app_assoc. reflexivity.
  - injection Hraise as <-. right. right.
    exists tools, m, tcs, rs. auto.
Qed.

(** X15: when the arguments of every call of a batch parse, the history
    sent with the second completion request answers each call: it holds
    one tool entry per call, in batch order, each with the id of its call,
    and the tool host was invoked once per call. *)
Theorem parsed_batch_is_fully_answered q (w : World W) tools e1 m e2 tcs :
  session_list_tools (ext w) = (inr tools, e1) ->
  chat_completions_create
    (first_request [UserMsg q] (map to_tool_spec tools)) e1 = (inr m, e2) ->
  msg_tool_calls m = Some tcs ->
  tcs <> [] ->
  Forall (fun tc => exists args, json_loads (tc_arguments tc) = Parsed args)
         tcs ->
  exists evs req1 req2,
    trace (snd (process_query q w)) = (trace w ++ evs)%list /\
    completion_requests evs = [req1; req2] /\
    map fst (tool_entries (req_messages req2)) = map tc_id tcs /\
    map fst (host_invocations evs) = map tc_name tcs.
Proof.
  intros Hl Hc Hcalls Hne Hall.
  rewrite process_query_run_turn. cbn [snd].
  destruct (parsed_calls_all tcs Hall) as (Hids & Hcount & Hu).
  destruct (run_turn_batch q w tools e1 m e2 tcs Hl Hc Hcalls Hne Hu)
    as (rs & r2 & hist & Hlen & Hhist & Htr & _).
  eexists _, _, _. split; [exact Htr|].
  rewrite !completion_requests_app, call_events_requests.
  split; [reflexivity|]. cbn [req_messages second_request]. split.
  - rewrite Hhist, (tool_entries_of_batch q m tcs rs Hlen). exact Hids.
  - rewrite !host_invocations_app. cbn [host_invocations app].
    rewrite app_nil_r, (call_events_invocations _ rs Hlen), map_map.
    cbn [fst]. clear -Hall.
    induction Hall as [|tc tcs [args Hp] _ IH]; simpl; auto.
    rewrite Hp. simpl. now rewrite IH.
Qed.
End TurnExtras.

Lemma turn_raises_at_its_last_request_witness :
  exists evs,
    trace (snd (scripted_query "Hello"
                  [RTools (inr [get_weather]); RChat (inl "rate limited")]))
    = ([] ++ evs)%list /\
    (evs = [EvListTools (inl "rate limited")] \/
     (exists before req,
       evs = (before ++ [EvCreate req (inl "rate limited")])%list) \/
     (exists tools m tcs rs,
         msg_tool_calls m = Some tcs /\
         uncaught (RT := example_runtime) tcs = Some "rate limited" /\
         length rs = length (parsed_calls (RT := example_runtime) tcs) /\
         evs = ([EvListTools (inr tools);
                 EvCreate (first_request [UserMsg "Hello"]
                             (map to_tool_spec tools)) (inr m)]
                  ++ call_events (parsed_calls (RT := example_runtime) tcs)
                       rs)%list)).
Proof.
  apply (@turn_raises_at_its_last_request example_runtime (list Response)
           scripted "Hello"
           (fresh_world [RTools (inr [get_weather]);
                         RChat (inl "rate limited")])
           "rate limited").
  reflexivity.
Defined.

Lemma parsed_batch_is_fully_answered_witness :
  exists evs req1 req2,
    trace (snd (scripted_query "Weather in Paris?" failing_script))
    = ([] ++ evs)%list /\
    completion_requests evs = [req1; req2] /\
    map fst (tool_entries (req_messages req2)) = ["call_1"] /\
    map fst (host_invocations evs) = ["get_weather"].
Proof.
  apply (@parsed_batch_is_fully_answered example_runtime (list Response)
           scripted "Weather in Paris?" (fresh_world failing_script)
           [get_weather] (tl failing_script) (batch_reply [weather_call])
           (tl (tl failing_script)) [weather_call]).
  - reflexivity.
  - reflexivity.
  - reflexivity.
  - discriminate.
  - repeat constructor. now exists paris_args.
Defined.
